(** * json-tools: the conversion helpers of [json_tools.converters], the
    differ of [json_tools.json_ops] and the choice of the converter in
    [json_tools.__main__], embedded as Rocq functions.

    What is library code in the Python source stays outside the model and a
    document is taken at the boundary the source hands it over:
    - a markup document is the [Element] tree that
      [xml.etree.ElementTree.fromstring] returns and that [tostring] is given;
    - a delimited file is its header and its records, the lists that
      [csv.DictReader] reads and [csv.DictWriter] is asked to write;
    - [json.dumps], [json.loads] and [difflib.unified_diff] are parameters of
      the sections that call them.

    Strings are sequences of code points below 256.  JSON numbers are the
    integers; floating point numbers are not modelled. *)

From Stdlib Require Import List String Ascii ZArith Bool Arith Lia DecimalString.
Import ListNotations.
Local Open Scope string_scope.
Local Open Scope list_scope.

Set Implicit Arguments.

(** ** Python values *)

(** The values [json.load] and [_element_to_data] build.  A [dict] keeps its
    entries in insertion order; its keys are strings. *)
#[local] Unset Elimination Schemes.
Inductive value : Type :=
| VNone
| VBool (b : bool)
| VInt (n : Z)
| VStr (s : string)
| VList (items : list value)
| VDict (entries : list (string * value)).
#[local] Set Elimination Schemes.

Definition dict : Type := list (string * value).

Section ValueInduction.
Variable P : value -> Prop.
Hypothesis HNone : P VNone.
Hypothesis HBool : forall b, P (VBool b).
Hypothesis HInt : forall n, P (VInt n).
Hypothesis HStr : forall s, P (VStr s).
Hypothesis HList : forall items, Forall P items -> P (VList items).
Hypothesis HDict :
  forall entries, Forall (fun kv => P (snd kv)) entries -> P (VDict entries).

Fixpoint value_nested_ind (v : value) : P v :=
  match v with
  | VNone => HNone
  | VBool b => HBool b
  | VInt n => HInt n
  | VStr s => HStr s
  | VList items =>
      HList ((fix go (l : list value) : Forall P l :=
                match l with
                | [] => Forall_nil _
                | x :: l' => Forall_cons x (value_nested_ind x) (go l')
                end) items)
  | VDict entries =>
      HDict ((fix go (l : list (string * value))
                : Forall (fun kv => P (snd kv)) l :=
                match l with
                | [] => Forall_nil _
                | kv :: l' =>
                    Forall_cons kv (value_nested_ind (snd kv)) (go l')
                end) entries)
  end.
End ValueInduction.

Definition is_dict (v : value) : bool :=
  match v with VDict _ => true | _ => false end.

Definition is_list (v : value) : bool :=
  match v with VList _ => true | _ => false end.

(** ** Strings *)

(** [str.isspace] on one code point below 256. *)
Definition isspace (c : ascii) : bool :=
  let n := nat_of_ascii c in
  (((9 <=? n) && (n <=? 13)) || ((28 <=? n) && (n <=? 32))
   || (n =? 133) || (n =? 160))%nat.

Fixpoint lstrip (s : string) : string :=
  match s with
  | EmptyString => EmptyString
  | String c s' => if isspace c then lstrip s' else s
  end.

Fixpoint rstrip (s : string) : string :=
  match s with
  | EmptyString => EmptyString
  | String c s' =>
      match rstrip s' with
      | EmptyString => if isspace c then EmptyString else String c EmptyString
      | r => String c r
      end
  end.

(** [str.strip()] *)
Definition strip (s : string) : string := rstrip (lstrip s).

(** [str(value)] for the scalars; containers print through [json.dumps] where
    the source needs their text. *)
Definition py_str (v : value) : string :=
  match v with
  | VNone => "None"
  | VBool true => "True"
  | VBool false => "False"
  | VInt n => NilZero.string_of_int (Z.to_int n)
  | VStr s => s
  | VList _ | VDict _ => EmptyString
  end.

(** [str.split(sep)] for a one-character separator. *)
Fixpoint split (sep : ascii) (s : string) : list string :=
  match s with
  | EmptyString => [EmptyString]
  | String c s' =>
      if Ascii.eqb c sep then EmptyString :: split sep s'
      else match split sep s' with
           | [] => [String c EmptyString]
           | part :: parts => String c part :: parts
           end
  end.

(** ** Dictionaries in insertion order *)

Fixpoint dict_lookup (d : dict) (key : string) : option value :=
  match d with
  | [] => None
  | (k, v) :: d' => if String.eqb k key then Some v else dict_lookup d' key
  end.

(** [key in d] *)
Definition dict_mem (d : dict) (key : string) : bool :=
  match dict_lookup d key with Some _ => true | None => false end.

(** [d.get(key, default)] *)
Definition dict_get_default (d : dict) (key : string) (default : value) : value :=
  match dict_lookup d key with Some v => v | None => default end.

(** [d.get(key)], Python's [None] when the key is absent. *)
Definition dict_get (d : dict) (key : string) : value :=
  dict_get_default d key VNone.

(** [d[key] = v]: an existing key keeps its position, a new key goes last. *)
Fixpoint dict_set (d : dict) (key : string) (v : value) : dict :=
  match d with
  | [] => [(key, v)]
  | (k, v0) :: d' =>
      if String.eqb k key then (k, v) :: d' else (k, v0) :: dict_set d' key v
  end.

Definition dict_keys (d : dict) : list string := map fst d.
Definition dict_values (d : dict) : list value := map snd d.

(** [dict(pairs)] *)
Definition dict_of_pairs (pairs : list (string * value)) : dict :=
  fold_left (fun d kv => dict_set d (fst kv) (snd kv)) pairs [].

(** ** Markup: element trees *)

(** An [xml.etree.ElementTree.Element]: tag, text and children.  Attributes
    and tails are never read nor written by the converters. *)
#[local] Unset Elimination Schemes.
Inductive Element : Type :=
  mkElement { tag : string; text : option string; children : list Element }.
#[local] Set Elimination Schemes.

Section ElementInduction.
Variable P : Element -> Prop.
Hypothesis HElement :
  forall t txt kids, Forall P kids -> P (mkElement t txt kids).

Fixpoint Element_nested_ind (element : Element) : P element :=
  match element with
  | mkElement t txt kids =>
      HElement t txt
        ((fix go (l : list Element) : Forall P l :=
            match l with
            | [] => Forall_nil _
            | x :: l' => Forall_cons x (Element_nested_ind x) (go l')
            end) kids)
  end.
End ElementInduction.

(** [Element(tag)] *)
Definition new_element (t : string) : Element := mkElement t None [].

(** The effect of [child = SubElement(element, t)] followed by calls that fill
    [child]: the filled child is the last child of [element]. *)
Definition append_child (element child : Element) : Element :=
  mkElement (tag element) (text element) (children element ++ [child]).

Definition set_text (element : Element) (s : string) : Element :=
  mkElement (tag element) (Some s) (children element).

Fixpoint _populate_xml (element : Element) (v : value) {struct v} : Element :=
  match v with
  | VDict entries =>
      fold_left
        (fun el kv =>
           let '(key, child_value) := kv in
           match child_value with
           | VList items =>
               fold_left
                 (fun el' item =>
                    append_child el' (_populate_xml (new_element key) item))
                 items el
           | _ =>
               append_child el (_populate_xml (new_element key) child_value)
           end)
        entries element
  | VList items =>
      fold_left
        (fun el item =>
           append_child el (_populate_xml (new_element (tag el)) item))
        items element
  | VNone => set_text element EmptyString
  | _ => set_text element (py_str v)
  end.

(** Errors raised by the modelled functions, one constructor per [raise] of
    the source (the first four are a [ValueError] with its message). *)
Inductive error : Type :=
| SingleRootExpected  (* "XML conversion expects a single root element." *)
| RowsNotFound        (* "Unable to locate a list of row objects inside the XML. ..." *)
| NotListOfObjects    (* "Input JSON must be a list of objects for CSV conversion." *)
| TooFewFiles         (* "At least two files are required to run a comparison." *)
| FileNotFound (path : string)
| ParseError          (* raised by the library parsers on malformed text *)
| NotADict.           (* [len(payload)] or [payload.items()] on a non-dict *)

Definition result (A : Type) : Type := error + A.

(** [_dict_to_xml_string] up to its call of [tostring]: the root element that
    is then serialised and pretty-printed by the library. *)
Definition _dict_to_xml_root (payload : value) : result Element :=
  match payload with
  | VDict [(root_name, root_value)] =>
      inr (_populate_xml (new_element root_name) root_value)
  | VDict _ => inl SingleRootExpected
  | _ => inl NotADict
  end.

(** One turn of the loop of [_element_to_data] over the children.  The list
    that [existing.append(value)] extends is the one stored under the tag, so
    the entry keeps its place and gains an item. *)
Definition merge_child (result : dict) (child_tag : string) (v : value) : dict :=
  match dict_lookup result child_tag with
  | Some (VList existing) => dict_set result child_tag (VList (existing ++ [v]))
  | Some existing => dict_set result child_tag (VList [existing; v])
  | None => dict_set result child_tag v
  end.

Fixpoint _element_to_data (element : Element) : value :=
  match element with
  | mkElement _ txt [] =>
      VStr (strip (match txt with Some s => s | None => EmptyString end))
  | mkElement _ _ kids =>
      VDict (fold_left
               (fun result child =>
                  merge_child result (tag child) (_element_to_data child))
               kids [])
  end.

(** [_xml_to_dict] after [fromstring]: [root] is the parsed document. *)
Definition _xml_to_dict (root : Element) : value :=
  VDict [(tag root, _element_to_data root)].

(** ** Row extraction *)

Fixpoint ensure_loop (items : list value) (rows : list dict) : option (list dict) :=
  match items with
  | [] => match rows with [] => None | _ => Some rows end
  | VDict d :: rest => ensure_loop rest (rows ++ [d])
  | _ :: _ => None
  end.

Definition _ensure_list_of_dicts (items : list value) : option (list dict) :=
  ensure_loop items [].

(** The loop of [_follow_row_path]; Python's [None] is [VNone]. *)
Fixpoint follow_loop (current : value) (parts : list string) : value :=
  match parts with
  | [] => current
  | part :: rest =>
      let current :=
        match current with VDict d => dict_get d part | _ => VNone end in
      match current with
      | VNone => VNone
      | _ => follow_loop current rest
      end
  end.

Definition _follow_row_path (data : value) (dotted_path : string)
  : option (list dict) :=
  match follow_loop data (split "." dotted_path) with
  | VNone => None
  | VList items => _ensure_list_of_dicts items
  | VDict d => _ensure_list_of_dicts [VDict d]
  | _ => None
  end.

Fixpoint _find_first_row_list (obj : value) : option (list dict) :=
  match obj with
  | VList items => _ensure_list_of_dicts items
  | VDict entries =>
      (fix loop (entries : list (string * value)) : option (list dict) :=
         match entries with
         | [] => None
         | (_, v) :: rest =>
             match _find_first_row_list v with
             | Some rows => Some rows
             | None => loop rest
             end
         end) entries
  | _ => None
  end.

(** Lines 105-115 of [convert_xml_to_csv]: choose the rows, or raise.  An
    absent and an empty [row_path] are both false in Python. *)
Definition locate_rows (xml_data : value) (row_path : option string)
  : result (list dict) :=
  let rows :=
    match row_path with
    | None | Some EmptyString => _find_first_row_list xml_data
    | Some path => _follow_row_path xml_data path
    end in
  match rows with
  | None => inl RowsNotFound
  | Some rows => inr rows
  end.

(** ** Delimited files *)

(** What [csv.DictWriter] is asked to write: the field names and, per
    [writerow], the cells in field-name order. *)
Record csv_file : Type :=
  mkCsv { header : list string; records : list (list value) }.

Definition _collect_fieldnames (rows : list dict) : list string :=
  fold_left
    (fun fieldnames row =>
       fold_left
         (fun fieldnames key =>
            if existsb (String.eqb key) fieldnames then fieldnames
            else fieldnames ++ [key])
         (dict_keys row) fieldnames)
    rows [].

Definition _write_csv (rows : list dict) : csv_file :=
  let fieldnames := _collect_fieldnames rows in
  mkCsv fieldnames
    (map (fun row =>
            map (fun key => dict_get_default row key (VStr EmptyString)) fieldnames)
       rows).

(** One row of [csv.DictReader]: [dict(zip(fieldnames, row))], with [None]
    under the field names a short row leaves out.  A row longer than the
    header is stored by the library under the key [None], which a dictionary
    of this model cannot hold: the result is [None] there. *)
Definition reader_row (fieldnames row : list string) : option dict :=
  if (List.length fieldnames <? List.length row)%nat then None
  else Some (fold_left (fun d key => dict_set d key VNone)
               (skipn (List.length row) fieldnames)
               (dict_of_pairs (combine fieldnames (map VStr row)))).

(** [list(csv.DictReader(...))] once the header is read; blank records are
    skipped. *)
Fixpoint DictReader (fieldnames : list string) (lines : list (list string))
  : option (list dict) :=
  match lines with
  | [] => Some []
  | [] :: rest => DictReader fieldnames rest
  | row :: rest =>
      match reader_row fieldnames row, DictReader fieldnames rest with
      | Some d, Some ds => Some (d :: ds)
      | _, _ => None
      end
  end.

(** [_read_csv_rows] on the records of the file, the first one being the
    header. *)
Definition _read_csv_rows (lines : list (list string)) : option (list dict) :=
  match lines with
  | [] => Some []
  | fieldnames :: rest => DictReader fieldnames rest
  end.

(** [convert_csv_to_csv] from the records read to the records written; [None]
    only where [reader_row] is, on a row longer than the header. *)
Definition convert_csv_to_csv (lines : list (list string)) : option csv_file :=
  option_map _write_csv (_read_csv_rows lines).

(** ** Files *)

(** The texts stored under each path. *)
Definition files : Type := string -> option string.

Definition no_files : files := fun _ => None.


Definition write_text (fs : files) (path payload : string) : files :=
  fun p => if String.eqb p path then Some payload else fs p.


(** ** Markup to rows *)

Section XmlToCsv.
(** [json.dumps(value, ensure_ascii=False)] *)
Variable json_dumps : value -> string.

Definition _coerce_value (v : value) : string :=
  match v with
  | VList _ | VDict _ => json_dumps v
  | VNone => EmptyString
  | _ => py_str v
  end.

Definition _normalise_row (row : dict) : dict :=
  dict_of_pairs (map (fun kv => (fst kv, VStr (_coerce_value (snd kv)))) row).

(** [convert_xml_to_csv] from the parsed document to the rows written. *)
Definition convert_xml_to_csv (root : Element) (row_path : option string)
  : result csv_file :=
  match locate_rows (_xml_to_dict root) row_path with
  | inl e => inl e
  | inr rows => inr (_write_csv (map _normalise_row rows))
  end.
End XmlToCsv.

(** ** The differ *)

Section Differ.
(** [json.load] on the text of a file, [None] when it raises. *)
Variable json_loads : string -> option value.
(** [json.dumps(payload, indent=2, sort_keys=True).splitlines()] *)
Variable dumps_sorted : value -> list string.
(** [difflib.unified_diff(a, b, fromfile=..., tofile=...)] *)
Variable unified_diff :
  list string -> list string -> string -> string -> list string.

Definition _read_json (fs : files) (path : string) : result value :=
  match fs path with
  | None => inl (FileNotFound path)
  | Some source =>
      match json_loads source with
      | Some payload => inr payload
      | None => inl ParseError
      end
  end.

(** [[_read_json(path) for path in file_paths]] *)
Fixpoint read_payloads (fs : files) (file_paths : list string)
  : result (list value) :=
  match file_paths with
  | [] => inr []
  | path :: rest =>
      match _read_json fs path with
      | inl e => inl e
      | inr payload =>
          match read_payloads fs rest with
          | inl e => inl e
          | inr payloads => inr (payload :: payloads)
          end
      end
  end.

Definition no_differences (file_a file_b : string) : string :=
  "No differences detected between " ++ file_a ++ " and " ++ file_b ++ ".".

(** The body of the loop over [range(len(rendered) - 1)]. *)
Definition compare_step (file_paths : list string)
  (rendered : list (list string)) (diffs : list string) (index : nat)
  : list string :=
  let file_a := nth index file_paths EmptyString in
  let file_b := nth (index + 1) file_paths EmptyString in
  match unified_diff (nth index rendered []) (nth (index + 1) rendered [])
          file_a file_b with
  | [] => diffs ++ [no_differences file_a file_b]
  | diff_lines => diffs ++ diff_lines
  end.

Definition compare_json_files (fs : files) (file_paths : list string)
  : result (list string) :=
  if (List.length file_paths <? 2)%nat then inl TooFewFiles
  else
    match read_payloads fs file_paths with
    | inl e => inl e
    | inr payloads =>
        let rendered := map dumps_sorted payloads in
        inr (fold_left (compare_step file_paths rendered)
               (seq 0 (List.length rendered - 1)) [])
    end.
End Differ.

(** ** Sample documents *)

Definition people_xml : Element :=
  mkElement "rows" None
    [ mkElement "row" None
        [mkElement "name" (Some "Alice") []; mkElement "age" (Some "30") []];
      mkElement "row" None
        [mkElement "name" (Some "Bob") []; mkElement "age" (Some "25") []] ].

(** The value of the heuristic search example. *)
Definition nested_then_rows : value :=
  VDict [ ("a", VDict [("b", VInt 1)]);
          ("rows", VList [VDict [("x", VInt 1)]; VDict [("x", VInt 2)]]) ].

(** ** Reference definitions for the stated properties *)

(** The keys of a list with every repetition after the first dropped. *)
Fixpoint first_seen (keys : list string) : list string :=
  match keys with
  | [] => []
  | k :: rest => k :: filter (fun x => negb (String.eqb x k)) (first_seen rest)
  end.

(** The inner loop of [_collect_fieldnames]. *)
Definition add_keys (fieldnames keys : list string) : list string :=
  fold_left
    (fun fieldnames key =>
       if existsb (String.eqb key) fieldnames then fieldnames
       else fieldnames ++ [key])
    keys fieldnames.

(** The children one entry of a [dict] contributes in [_populate_xml]. *)
Definition entry_children (kv : string * value) : list Element :=
  match snd kv with
  | VList items => map (fun item => _populate_xml (new_element (fst kv)) item) items
  | child_value => [_populate_xml (new_element (fst kv)) child_value]
  end.

(** Depth-first, pre-order traversal of the search: a node, then what lies
    under each entry of a Fields value, entry by entry.  The items of a
    Sequence are not visited. *)
Fixpoint preorder (v : value) : list value :=
  v :: match v with
       | VDict entries =>
           flat_map (fun kv => let '(_, child) := kv in preorder child) entries
       | _ => []
       end.

(** Every value occurring anywhere in a value, items of Sequences included. *)
Fixpoint subvalues (v : value) : list value :=
  v :: match v with
       | VDict entries =>
           flat_map (fun kv => let '(_, child) := kv in subvalues child) entries
       | VList items => flat_map subvalues items
       | _ => []
       end.

(** A non-empty Sequence all of whose items are Fields. *)
Definition is_row_list (v : value) : bool :=
  match v with
  | VList ((_ :: _) as items) => forallb is_dict items
  | _ => false
  end.

(** The Fields among some items. *)
Definition dicts_of (items : list value) : list dict :=
  flat_map (fun v => match v with VDict d => [d] | _ => [] end) items.

Definition rows_of (found : option value) : option (list dict) :=
  match found with
  | Some (VList items) => Some (dicts_of items)
  | _ => None
  end.

(** Looking keys up one after the other through Fields values. *)
Fixpoint walk (v : value) (keys : list string) : option value :=
  match keys with
  | [] => Some v
  | key :: rest =>
      match v with
      | VDict d =>
          match dict_lookup d key with
          | Some child => walk child rest
          | None => None
          end
      | _ => None
      end
  end.

(** [<r><row>x</row><row><a>1</a></row></r>]: repeated tags, one a leaf. *)
Definition mixed_xml : Element :=
  mkElement "r" None
    [ mkElement "row" (Some "x") [];
      mkElement "row" None [mkElement "a" (Some "1") []] ].


(** Stand-ins for the library functions of the differ, used to run it:
    a file's text is its payload, a payload renders to one line, and the diff
    of two renderings is empty when they are equal. *)
Definition toy_loads (source : string) : option value := Some (VStr source).
Definition toy_dumps (payload : value) : list string := [py_str payload].
Definition toy_diff (a b : list string) (fromfile tofile : string) : list string :=
  if list_eq_dec string_dec a b then []
  else [append "--- " fromfile; append "+++ " tofile; "@@ -1 +1 @@"]
         ++ map (append "-") a ++ map (append "+") b.

(** The loop of [_element_to_data] over the tags and decoded values of the
    children. *)
Definition merge_all (result : dict) (decoded : list (string * value)) : dict :=
  fold_left (fun result tv => merge_child result (fst tv) (snd tv)) decoded result.

(** Every Fields value inside a value, at any depth, has pairwise distinct
    keys. *)
#[local] Unset Elimination Schemes.
Inductive unique_keys : value -> Prop :=
| unique_keys_scalar v :
    is_dict v = false -> is_list v = false -> unique_keys v
| unique_keys_list items :
    Forall unique_keys items -> unique_keys (VList items)
| unique_keys_dict entries :
    NoDup (dict_keys entries) ->
    Forall (fun kv => unique_keys (snd kv)) entries ->
    unique_keys (VDict entries).
#[local] Set Elimination Schemes.

(** [<r><a>1</a><b>2</b><a>3</a><a>4</a></r>]: a tag repeated around
    another one. *)
Definition interleaved_xml : Element :=
  mkElement "r" None
    [ mkElement "a" (Some "1") []; mkElement "b" (Some "2") [];
      mkElement "a" (Some "3") []; mkElement "a" (Some "4") [] ].





(** The precondition of the round trip as the specification states it: only
    text, Fields and Sequences, every Sequence of length two or more. *)
Fixpoint sequences_ge2 (v : value) : bool :=
  match v with
  | VStr _ => true
  | VList items => (2 <=? List.length items)%nat && forallb sequences_ge2 items
  | VDict entries =>
      forallb (fun kv => let '(_, child) := kv in sequences_ge2 child) entries
  | _ => false
  end.

(** What of a document the decoder reads: tags, children, and the stripped
    text of the leaves. *)
Fixpoint canon (element : Element) : Element :=
  match element with
  | mkElement t txt [] =>
      mkElement t (Some (strip (match txt with Some s => s | None => EmptyString end))) []
  | mkElement t _ kids => mkElement t None (map canon kids)
  end.

(** Two documents the decoder cannot tell apart: they differ at most in the
    white space around leaf text and in the text of elements with children,
    as a document and its pretty-printed form do. *)
Definition same_content (a b : Element) : Prop := canon a = canon b.

(** ** The other converters *)


(** [convert_json_to_csv] from the loaded document to the records written. *)
Definition convert_json_to_csv (json_data : value) : result csv_file :=
  match json_data with
  | VList items =>
      if forallb is_dict items then inr (_write_csv (dicts_of items))
      else inl NotListOfObjects
  | _ => inl NotListOfObjects
  end.



(** ** The command line ([json_tools.__main__]) *)

Module Main.

(** The converter a handler of [_CONVERSION_HANDLERS] calls. *)
Inductive converter : Type :=
| to_convert_csv_to_json | to_convert_csv_to_xml | to_convert_csv_to_csv
| to_convert_json_to_csv | to_convert_json_to_xml | to_convert_json_to_json
| to_convert_xml_to_json | to_convert_xml_to_csv | to_convert_xml_to_xml.

(** The errors raised in [__main__], each a [ValueError] with its message,
    but for the last one. *)
Inductive cli_error : Type :=
| CannotInferInput    (* "Unable to infer input format. Please use --from ..." *)
| CannotInferOutput   (* "Unable to infer output format. Please use --to ..." *)
| Unsupported (source_format target_format : string)
                      (* "Unsupported conversion from ... to ..." *)
| ManyShortcuts       (* "Please specify only one conversion shortcut option at a time." *)
| InputRequired       (* "--input/-i is required when converting files." *)
| OutputRequired      (* "--output/-o is required when converting files." *)
| ManyModes           (* "Choose only one mode at a time (convert, --pretty, or --compare)." *)
| NoPath.             (* [AttributeError]: [None] has no [suffix] *)

Definition FORMATS : list string := ["csv"; "json"; "xml"].

Definition EXTENSION_MAP : list (string * string) :=
  [ (".csv", "csv"); (".tsv", "csv"); (".json", "json"); (".ndjson", "json");
    (".xml", "xml") ].

Definition SHORTCUT_FLAGS : list (string * (string * string)) :=
  [ ("csv_to_json", ("csv", "json")); ("json_to_csv", ("json", "csv"));
    ("json_to_xml", ("json", "xml")); ("xml_to_json", ("xml", "json"));
    ("csv_to_xml", ("csv", "xml")); ("xml_to_csv", ("xml", "csv")) ].

Definition _CONVERSION_HANDLERS : list ((string * string) * converter) :=
  [ (("csv", "json"), to_convert_csv_to_json);
    (("csv", "xml"), to_convert_csv_to_xml);
    (("csv", "csv"), to_convert_csv_to_csv);
    (("json", "csv"), to_convert_json_to_csv);
    (("json", "xml"), to_convert_json_to_xml);
    (("json", "json"), to_convert_json_to_json);
    (("xml", "json"), to_convert_xml_to_json);
    (("xml", "csv"), to_convert_xml_to_csv);
    (("xml", "xml"), to_convert_xml_to_xml) ].

(** [d.get(key)] on a dictionary with string keys. *)
Fixpoint get (A : Type) (d : list (string * A)) (key : string) : option A :=
  match d with
  | [] => None
  | (k, v) :: d' => if String.eqb k key then Some v else get d' key
  end.

(** [_CONVERSION_HANDLERS.get(pair)] *)
Fixpoint get_handler (d : list ((string * string) * converter))
  (pair : string * string) : option converter :=
  match d with
  | [] => None
  | ((s, t), h) :: d' =>
      if String.eqb s (fst pair) && String.eqb t (snd pair) then Some h
      else get_handler d' pair
  end.

(** [str.lower()] on one code point below 256. *)
Definition lower_char (c : ascii) : ascii :=
  let n := nat_of_ascii c in
  if (((65 <=? n) && (n <=? 90))
      || ((192 <=? n) && (n <=? 222) && negb (n =? 215)))%nat
  then ascii_of_nat (n + 32) else c.

Fixpoint lower (s : string) : string :=
  match s with
  | EmptyString => EmptyString
  | String c s' => String (lower_char c) (lower s')
  end.

(** The parsed arguments, as far as the conversion mode reads them. *)
Record Namespace : Type := mkNamespace {
  input : option string;
  output : option string;
  source_format : option string;
  target_format : option string;
  csv_to_json : bool;
  json_to_csv : bool;
  json_to_xml : bool;
  xml_to_json : bool;
  csv_to_xml : bool;
  xml_to_csv : bool;
  compare : list string;
  pretty : bool
}.

(** [getattr(args, flag, False)] for the shortcut flags. *)
Definition getattr (args : Namespace) (flag : string) : bool :=
  if String.eqb flag "csv_to_json" then csv_to_json args
  else if String.eqb flag "json_to_csv" then json_to_csv args
  else if String.eqb flag "json_to_xml" then json_to_xml args
  else if String.eqb flag "xml_to_json" then xml_to_json args
  else if String.eqb flag "csv_to_xml" then csv_to_xml args
  else if String.eqb flag "xml_to_csv" then xml_to_csv args
  else false.

(** [x or y] on an optional string: [None] and the empty string are false. *)
Definition or_else (x y : option string) : option string :=
  match x with
  | Some (String _ _) => x
  | _ => y
  end.

Definition truthy (x : option string) : bool :=
  match x with Some (String _ _) => true | _ => false end.

Section WithPaths.
(** [Path.suffix] *)
Variable suffix : string -> string.

Definition _infer_format (path : string) (allow_missing : bool) : option string :=
  let fmt := get EXTENSION_MAP (lower (suffix path)) in
  match fmt with
  | None => if negb allow_missing then None else fmt
  | Some _ => fmt
  end.

(** [_handle_convert] up to the call of the handler: the converter chosen. *)
Definition _handle_convert (args : Namespace) : cli_error + converter :=
  let infer (path : option string) (allow_missing : bool) :=
    match path with
    | Some p => inr (_infer_format p allow_missing)
    | None => inl NoPath
    end in
  let source :=
    if truthy (source_format args) then inr (source_format args)
    else infer (input args) false in
  match source with
  | inl e => inl e
  | inr source_format =>
      let target :=
        if truthy (target_format args) then inr (target_format args)
        else infer (output args) true in
      match target with
      | inl e => inl e
      | inr target_format =>
          match source_format, target_format with
          | Some (String _ _ as s), Some (String _ _ as t) =>
              match get_handler _CONVERSION_HANDLERS (s, t) with
              | Some handler => inr handler
              | None => inl (Unsupported s t)
              end
          | Some (String _ _), _ => inl CannotInferOutput
          | _, _ => inl CannotInferInput
          end
      end
  end.

Definition _apply_shortcuts (args : Namespace) : cli_error + Namespace :=
  let active := filter (getattr args) (map fst SHORTCUT_FLAGS) in
  if (1 <? List.length active)%nat then inl ManyShortcuts
  else
    match active with
    | flag :: _ =>
        match get SHORTCUT_FLAGS flag with
        | Some (src, dst) =>
            inr (mkNamespace (input args) (output args) (Some src) (Some dst)
                   (csv_to_json args) (json_to_csv args) (json_to_xml args)
                   (xml_to_json args) (csv_to_xml args) (xml_to_csv args)
                   (compare args) (pretty args))
        | None => inr args
        end
    | [] => inr args
    end.

Definition _require_path (path : option string) (message : cli_error)
  : cli_error + unit :=
  match path with
  | None => inl message
  | Some _ => inr tt
  end.

Definition _validate_mode (args : Namespace) : cli_error + unit :=
  let modes_selected :=
    List.length
      (filter (fun flag : bool => flag)
         [match compare args with [] => false | _ :: _ => true end; pretty args]) in
  if (1 <? modes_selected)%nat then inl ManyModes else inr tt.

(** The conversion branch of [main]: shortcuts, the two required paths, then
    the choice of the converter. *)
Definition convert_mode (args : Namespace) : cli_error + converter :=
  match _apply_shortcuts args with
  | inl e => inl e
  | inr args =>
      match _require_path (input args) InputRequired with
      | inl e => inl e
      | inr _ =>
          match _require_path (output args) OutputRequired with
          | inl e => inl e
          | inr _ => _handle_convert args
          end
      end
  end.
End WithPaths.

End Main.




(** * Properties *)

(** ** Dictionaries *)

Lemma dict_lookup_set (d : dict) (k k' : string) (v : value) :
  dict_lookup (dict_set d k v) k' =
  if String.eqb k k' then Some v else dict_lookup d k'.
Proof.
  induction d as [|[k0 v0] d IH]; simpl.
  - reflexivity.
  - destruct (String.eqb k0 k) eqn:E0; simpl.
    + apply String.eqb_eq in E0; subst k0.
      destruct (String.eqb k k'); reflexivity.
    + rewrite IH. destruct (String.eqb k0 k') eqn:E1; [|reflexivity].
      apply String.eqb_eq in E1; subst k'.
      rewrite String.eqb_sym, E0. reflexivity.
Qed.


Lemma dict_lookup_In (d : dict) (k : string) (v : value) :
  dict_lookup d k = Some v -> In (k, v) d.
Proof.
  induction d as [|[k0 v0] d IH]; simpl; [discriminate|].
  destruct (String.eqb k0 k) eqn:E.
  - apply String.eqb_eq in E. intros [= ->]. left; congruence.
  - auto.
Qed.

Lemma dict_set_fresh (d : dict) (k : string) (v : value) :
  ~ In k (dict_keys d) -> dict_set d k v = d ++ [(k, v)].
Proof.
  induction d as [|[k0 v0] d IH]; simpl; intros H.
  - reflexivity.
  - destruct (String.eqb k0 k) eqn:E.
    + apply String.eqb_eq in E. exfalso; auto.
    + rewrite IH by tauto. reflexivity.
Qed.



(** The keys after an assignment: unchanged for a known key, one more at the
    end for a new one. *)
Lemma dict_keys_set (d : dict) (k : string) (v : value) :
  dict_keys (dict_set d k v) =
  if existsb (String.eqb k) (dict_keys d) then dict_keys d
  else dict_keys d ++ [k].
Proof.
  unfold dict_keys.
  induction d as [|[k0 v0] d IH]; simpl.
  - reflexivity.
  - rewrite (String.eqb_sym k k0).
    destruct (String.eqb k0 k) eqn:E; simpl.
    + reflexivity.
    + rewrite IH.
      destruct (existsb (String.eqb k) (map fst d)); reflexivity.
Qed.

Lemma existsb_eqb_In (k : string) (l : list string) :
  existsb (String.eqb k) l = true <-> In k l.
Proof.
  rewrite existsb_exists. split.
  - intros [x [Hx E]]. apply String.eqb_eq in E. now subst.
  - intros H. exists k. split; [assumption | apply String.eqb_refl].
Qed.

Lemma dict_set_NoDup (d : dict) (k : string) (v : value) :
  NoDup (dict_keys d) -> NoDup (dict_keys (dict_set d k v)).
Proof.
  intros H. rewrite dict_keys_set.
  destruct (existsb (String.eqb k) (dict_keys d)) eqn:E; [assumption|].
  apply NoDup_app; [assumption | repeat constructor; simpl; tauto |].
  intros x Hx [<-|[]].
  apply existsb_eqb_In in Hx. congruence.
Qed.

Lemma dict_set_Forall (Q : string * value -> Prop) (d : dict) k v :
  Forall Q d -> (forall k', Q (k', v)) -> Forall Q (dict_set d k v).
Proof.
  intros Hd Hv. induction Hd as [|[k0 v0] d H0 Hd IH]; simpl.
  - auto.
  - destruct (String.eqb k0 k); constructor; auto.
Qed.

(** ** Field names in first-seen order *)

Lemma filter_filter_comm (A : Type) (p q : A -> bool) (l : list A) :
  filter p (filter q l) = filter q (filter p l).
Proof.
  induction l as [|x l IH]; simpl; [reflexivity|].
  destruct (p x) eqn:Ep, (q x) eqn:Eq; simpl;
    rewrite ?Ep, ?Eq, IH; reflexivity.
Qed.

Lemma filter_andb (A : Type) (p q : A -> bool) (l : list A) :
  filter p (filter q l) = filter (fun x => p x && q x) l.
Proof.
  induction l as [|x l IH]; simpl; [reflexivity|].
  destruct (q x) eqn:Eq; simpl; rewrite ?andb_false_r, ?andb_true_r.
  - destruct (p x); now rewrite IH.
  - assumption.
Qed.

Lemma filter_absorb (A : Type) (p q : A -> bool) (l : list A) :
  (forall x, p x = true -> q x = true) -> filter p (filter q l) = filter p l.
Proof.
  intros H. induction l as [|x l IH]; simpl; [reflexivity|].
  destruct (q x) eqn:Eq; simpl.
  - now rewrite IH.
  - destruct (p x) eqn:Ep; [|assumption].
    apply H in Ep. congruence.
Qed.

Lemma first_seen_filter (p : string -> bool) (l : list string) :
  first_seen (filter p l) = filter p (first_seen l).
Proof.
  induction l as [|x l IH]; simpl; [reflexivity|].
  destruct (p x) eqn:Ep; simpl.
  - rewrite IH. f_equal. apply filter_filter_comm.
  - rewrite IH. symmetry. apply filter_absorb.
    intros y Hy. destruct (String.eqb y x) eqn:E; [|reflexivity].
    apply String.eqb_eq in E. congruence.
Qed.

Lemma add_keys_first_seen (keys fieldnames : list string) :
  add_keys fieldnames keys =
  fieldnames ++
  first_seen (filter (fun k => negb (existsb (String.eqb k) fieldnames)) keys).
Proof.
  unfold add_keys. revert fieldnames.
  induction keys as [|k keys IH]; intros fieldnames; simpl.
  - now rewrite app_nil_r.
  - destruct (existsb (String.eqb k) fieldnames) eqn:E; simpl.
    + apply IH.
    + rewrite IH, <- app_assoc. simpl. do 2 f_equal.
      rewrite <- first_seen_filter, filter_andb. f_equal.
      apply filter_ext. intros y. rewrite existsb_app. simpl.
      rewrite orb_false_r, negb_orb, andb_comm. reflexivity.
Qed.

Lemma fold_left_via_map (A B C : Type) (f : A -> C -> A) (g : B -> C)
  (l : list B) (a : A) :
  fold_left f (map g l) a = fold_left (fun acc x => f acc (g x)) l a.
Proof.
  revert a. induction l as [|x l IH]; intros a; simpl; [reflexivity|apply IH].
Qed.

Lemma fold_add_keys (rows : list (list string)) (fieldnames : list string) :
  fold_left add_keys rows fieldnames = add_keys fieldnames (List.concat rows).
Proof.
  revert fieldnames. induction rows as [|r rows IH]; intros f; simpl.
  - reflexivity.
  - rewrite IH. unfold add_keys. now rewrite fold_left_app.
Qed.

Lemma _collect_fieldnames_first_seen (rows : list dict) :
  _collect_fieldnames rows = first_seen (List.concat (map dict_keys rows)).
Proof.
  unfold _collect_fieldnames.
  change (fold_left (fun f row => add_keys f (dict_keys row)) rows [] =
          first_seen (List.concat (map dict_keys rows))).
  rewrite <- (fold_left_via_map add_keys dict_keys).
  rewrite fold_add_keys, add_keys_first_seen. simpl. f_equal.
  clear. induction (List.concat (map dict_keys rows)); simpl; congruence.
Qed.

Lemma first_seen_In (k : string) (l : list string) :
  In k (first_seen l) <-> In k l.
Proof.
  induction l as [|x l IH]; simpl; [tauto|].
  rewrite filter_In, IH, negb_true_iff, String.eqb_neq.
  destruct (string_dec x k); [tauto|]. intuition congruence.
Qed.

Lemma first_seen_NoDup (l : list string) : NoDup (first_seen l).
Proof.
  induction l as [|x l IH]; simpl; constructor.
  - rewrite filter_In, negb_true_iff, String.eqb_neq. tauto.
  - now apply NoDup_filter.
Qed.

(** C7.  Tabular encode of any rows writes as header the field names of all
    rows, each once, in the order in which they are first seen across the rows
    (not sorted), and writes one record per row, in order, holding for each
    header field the row's value, or the empty string where the row has no
    such field.  Rows [{"a":"1"}] and [{"b":"2"}] give header a,b and the
    records 1, and ,2; rows with keys b then a give header b,a. *)
Theorem tabular_encode_header_and_rows :
  (forall rows : list dict,
      header (_write_csv rows) = first_seen (List.concat (map dict_keys rows))
      /\ NoDup (header (_write_csv rows))
      /\ (forall k, In k (header (_write_csv rows)) <->
                    exists row, In row rows /\ In k (dict_keys row))
      /\ List.length (records (_write_csv rows)) = List.length rows
      /\ (forall i row, nth_error rows i = Some row ->
            nth_error (records (_write_csv rows)) i =
            Some (map (fun key => match dict_lookup row key with
                                  | Some v => v
                                  | None => VStr EmptyString
                                  end)
                    (header (_write_csv rows)))))
  /\ _write_csv [[("a", VStr "1")]; [("b", VStr "2")]] =
     mkCsv ["a"; "b"] [[VStr "1"; VStr EmptyString]; [VStr EmptyString; VStr "2"]]
  /\ header (_write_csv [[("b", VStr "2")]; [("a", VStr "1"); ("b", VStr "3")]]) =
     ["b"; "a"].
Proof.
  split; [|split; reflexivity].
  intros rows. unfold _write_csv; simpl.
  rewrite _collect_fieldnames_first_seen.
  repeat split.
  - apply first_seen_NoDup.
  - rewrite first_seen_In, in_concat.
    intros [keys [Hk Hin]]. apply in_map_iff in Hk as [row [<- Hrow]]. eauto.
  - rewrite first_seen_In, in_concat.
    intros [row [Hrow Hin]]. exists (dict_keys row). split; [|assumption].
    now apply in_map.
  - apply length_map.
  - intros i row Hi. rewrite nth_error_map, Hi. reflexivity.
Qed.

(** The third row of a three-row table. *)
Lemma tabular_encode_header_and_rows_witness :
  nth_error
    (records (_write_csv [[("a", VStr "1")]; [("b", VStr "2")];
                          [("c", VStr "3"); ("a", VStr "4")]])) 2 =
  Some [VStr "4"; VStr EmptyString; VStr "3"].
Proof.
  exact (proj2 (proj2 (proj2 (proj2
    (proj1 tabular_encode_header_and_rows
       [[("a", VStr "1")]; [("b", VStr "2")];
        [("c", VStr "3"); ("a", VStr "4")]]))))
    2 [("c", VStr "3"); ("a", VStr "4")] eq_refl).
Defined.

(** ** Markup encode *)

Lemma fold_left_invariant (A B : Type) (P : A -> Prop) (f : A -> B -> A)
  (l : list B) (a : A) :
  P a -> (forall a x, P a -> P (f a x)) -> P (fold_left f l a).
Proof.
  intros Ha Hf. revert a Ha.
  induction l as [|x l IH]; intros a Ha; simpl; auto.
Qed.

Lemma _populate_xml_tag (element : Element) (v : value) :
  tag (_populate_xml element v) = tag element.
Proof.
  destruct v; try reflexivity; simpl.
  - apply fold_left_invariant with (P := fun el => tag el = tag element);
      [reflexivity | intros a x Ha; exact Ha].
  - apply fold_left_invariant with (P := fun el => tag el = tag element);
      [reflexivity|].
    intros a [key child_value] Ha.
    destruct child_value; try exact Ha.
    apply fold_left_invariant with (P := fun el => tag el = tag element);
      [exact Ha | intros a' x Ha'; exact Ha'].
Qed.

Lemma _populate_xml_text (element : Element) (items : list value) :
  text (_populate_xml element (VList items)) = text element.
Proof.
  simpl. apply fold_left_invariant with (P := fun el => text el = text element);
    [reflexivity | intros a x Ha; exact Ha].
Qed.

(** Children appended under a fixed tag. *)
Lemma fold_append_children (t : string) (items : list value) (el : Element) :
  fold_left (fun el' item => append_child el' (_populate_xml (new_element t) item))
    items el =
  mkElement (tag el) (text el)
    (children el ++ map (fun item => _populate_xml (new_element t) item) items).
Proof.
  revert el. induction items as [|x items IH]; intros el; simpl.
  - rewrite app_nil_r. now destruct el.
  - rewrite IH. simpl. now rewrite <- app_assoc.
Qed.

Lemma _populate_xml_list (element : Element) (items : list value) :
  _populate_xml element (VList items) =
  mkElement (tag element) (text element)
    (children element ++
     map (fun item => _populate_xml (new_element (tag element)) item) items).
Proof.
  rewrite <- fold_append_children. simpl.
  assert (H : forall el, tag el = tag element ->
    fold_left (fun el item =>
                 append_child el (_populate_xml (new_element (tag el)) item))
      items el =
    fold_left (fun el' item =>
                 append_child el' (_populate_xml (new_element (tag element)) item))
      items el).
  { induction items as [|x items IH]; intros el Hel; simpl; [reflexivity|].
    rewrite Hel. apply IH. exact Hel. }
  apply H. reflexivity.
Qed.

Lemma _populate_xml_dict (element : Element) (entries : dict) :
  _populate_xml element (VDict entries) =
  mkElement (tag element) (text element)
    (children element ++ flat_map entry_children entries).
Proof.
  simpl. revert element.
  induction entries as [|[key child_value] entries IH]; intros el; simpl.
  - rewrite app_nil_r. now destruct el.
  - rewrite IH. unfold entry_children at 2. simpl.
    destruct child_value; simpl; rewrite <- ?app_assoc; try reflexivity.
    rewrite fold_append_children. simpl. now rewrite <- app_assoc.
Qed.

(** C8.  Populating an element with a Sequence given directly as its content
    (as happens for a Sequence that is an item of a Sequence) leaves its tag
    and text alone and appends one child per item, in order, every child
    carrying the element's own tag and filled from its item.  So
    [{"r": {"a": [["x","y"],"z"]}}] encodes to
    [<r><a><a>x</a><a>y</a></a><a>z</a></r>]. *)
Theorem sequence_content_repeats_parent_tag :
  (forall (element : Element) (items : list value),
      let added :=
        map (fun item => _populate_xml (new_element (tag element)) item) items in
      _populate_xml element (VList items) =
        mkElement (tag element) (text element) (children element ++ added)
      /\ List.length added = List.length items
      /\ Forall (fun child => tag child = tag element) added)
  /\ _dict_to_xml_root
       (VDict [("r", VDict [("a", VList [VList [VStr "x"; VStr "y"]; VStr "z"])])]) =
     inr (mkElement "r" None
            [ mkElement "a" None
                [mkElement "a" (Some "x") []; mkElement "a" (Some "y") []];
              mkElement "a" (Some "z") [] ]).
Proof.
  split; [|reflexivity].
  intros element items added. repeat split.
  - apply _populate_xml_list.
  - apply length_map.
  - apply Forall_forall. intros child Hin.
    apply in_map_iff in Hin as [item [<- _]].
    now rewrite _populate_xml_tag.
Qed.

(** ** Row extraction *)

Lemma ensure_loop_spec (items : list value) (rows : list dict) :
  ensure_loop items rows =
  if forallb is_dict items
  then match rows ++ dicts_of items with [] => None | found => Some found end
  else None.
Proof.
  revert rows. induction items as [|x items IH]; intros rows; simpl.
  - rewrite app_nil_r. destruct rows; reflexivity.
  - destruct x; simpl; try reflexivity.
    rewrite IH, <- app_assoc. reflexivity.
Qed.

Lemma dicts_of_length (items : list value) :
  forallb is_dict items = true -> List.length (dicts_of items) = List.length items.
Proof.
  induction items as [|x items IH]; simpl; [reflexivity|].
  destruct x; simpl; try discriminate. intros H. now rewrite IH.
Qed.

Lemma _ensure_list_of_dicts_spec (items : list value) :
  _ensure_list_of_dicts items =
  if is_row_list (VList items) then Some (dicts_of items) else None.
Proof.
  unfold _ensure_list_of_dicts. rewrite ensure_loop_spec. cbn [app].
  destruct items as [|x items]; [reflexivity|]. cbn [is_row_list].
  destruct (forallb is_dict (x :: items)) eqn:E; [|reflexivity].
  apply dicts_of_length in E.
  destruct (dicts_of (x :: items)); [discriminate E | reflexivity].
Qed.

Lemma _ensure_list_of_dicts_nonempty (items : list value) (rows : list dict) :
  _ensure_list_of_dicts items = Some rows -> rows <> [].
Proof.
  rewrite _ensure_list_of_dicts_spec.
  destruct items as [|x items]; simpl; [discriminate|].
  destruct (is_dict x && forallb is_dict items) eqn:E; [|discriminate].
  intros [= <-]. apply andb_prop in E as [E _].
  destruct x; simpl in *; discriminate.
Qed.

Lemma find_app (A : Type) (p : A -> bool) (l1 l2 : list A) :
  find p (l1 ++ l2) =
  match find p l1 with Some x => Some x | None => find p l2 end.
Proof.
  induction l1 as [|x l1 IH]; simpl; [reflexivity|].
  destruct (p x); [reflexivity | exact IH].
Qed.

Lemma find_all_false (A : Type) (p : A -> bool) (l : list A) :
  (forall x, In x l -> p x = false) -> find p l = None.
Proof.
  induction l as [|x l IH]; simpl; intros H; [reflexivity|].
  rewrite (H x) by auto. apply IH. auto.
Qed.

Lemma rows_of_found (l : list value) (x : value) :
  find is_row_list l = Some x -> exists rows, rows_of (Some x) = Some rows.
Proof.
  intros H. apply find_some in H as [_ H].
  destruct x; try discriminate. simpl. eauto.
Qed.

Lemma _find_first_row_list_spec (obj : value) :
  _find_first_row_list obj = rows_of (find is_row_list (preorder obj)).
Proof.
  induction obj as [| | | |items _|entries IH] using value_nested_ind;
    try reflexivity.
  - simpl _find_first_row_list. rewrite _ensure_list_of_dicts_spec.
    simpl. destruct items; [reflexivity|].
    destruct (forallb is_dict (v :: items)); reflexivity.
  - simpl. induction IH as [|[key child] entries Hc _ IHe]; [reflexivity|].
    simpl in *. rewrite find_app, Hc.
    destruct (find is_row_list (preorder child)) as [x|] eqn:E.
    + destruct (rows_of_found _ E) as [rows ->]. reflexivity.
    + exact IHe.
Qed.

Lemma preorder_subvalues (obj x : value) :
  In x (preorder obj) -> In x (subvalues obj).
Proof.
  induction obj as [| | | |items _|entries IH] using value_nested_ind;
    simpl; try tauto.
  intros [H|H]; [now left | right].
  induction IH as [|[key child] entries Hc _ IHe]; [assumption|].
  simpl in *. apply in_app_iff in H as [H|H]; apply in_app_iff; auto.
Qed.

Lemma walk_follow_loop (keys : list string) (v x : value) :
  walk v keys = Some x -> x <> VNone -> follow_loop v keys = x.
Proof.
  revert v. induction keys as [|key keys IH]; intros v; simpl.
  - now intros [= ->].
  - destruct v; try discriminate.
    unfold dict_get, dict_get_default.
    destruct (dict_lookup entries key) as [child|]; [|discriminate].
    intros Hw Hx. destruct child; try (now apply IH).
    destruct keys; simpl in Hw; [congruence | discriminate].
Qed.

Lemma _find_first_row_list_nonempty (obj : value) (rows : list dict) :
  _find_first_row_list obj = Some rows -> rows <> [].
Proof.
  rewrite _find_first_row_list_spec.
  destruct (find is_row_list (preorder obj)) as [x|] eqn:E; [|discriminate].
  apply find_some in E as [_ E].
  destruct x; try discriminate. simpl.
  intros [= <-]. apply (@_ensure_list_of_dicts_nonempty items).
  rewrite _ensure_list_of_dicts_spec, E. reflexivity.
Qed.

Lemma _follow_row_path_nonempty (data : value) (path : string) (rows : list dict) :
  _follow_row_path data path = Some rows -> rows <> [].
Proof.
  unfold _follow_row_path.
  destruct (follow_loop data (split "." path)); try discriminate;
    apply _ensure_list_of_dicts_nonempty.
Qed.

Lemma locate_rows_nonempty (data : value) (row_path : option string)
  (rows : list dict) :
  locate_rows data row_path = inr rows -> rows <> [].
Proof.
  unfold locate_rows.
  destruct row_path as [[|c path]|].
  - destruct (_find_first_row_list data) eqn:E; [|discriminate].
    intros [= <-]. eapply _find_first_row_list_nonempty; eauto.
  - destruct (_follow_row_path data (String c path)) eqn:E; [|discriminate].
    intros [= <-]. eapply _follow_row_path_nonempty; eauto.
  - destruct (_find_first_row_list data) eqn:E; [|discriminate].
    intros [= <-]. eapply _find_first_row_list_nonempty; eauto.
Qed.

Lemma locate_rows_explicit (data : value) (path : string) :
  path <> EmptyString ->
  locate_rows data (Some path) =
  match _follow_row_path data path with
  | None => inl RowsNotFound
  | Some rows => inr rows
  end.
Proof.
  destruct path; [congruence | reflexivity].
Qed.

Lemma dicts_of_map_VDict (rows : list dict) : dicts_of (map VDict rows) = rows.
Proof.
  induction rows as [|d rows IH]; simpl; [reflexivity | now rewrite IH].
Qed.

Lemma map_VDict_dicts_of (items : list value) :
  forallb is_dict items = true -> map VDict (dicts_of items) = items.
Proof.
  induction items as [|x items IH]; simpl; [reflexivity|].
  destruct x; simpl; try discriminate. intros H. now rewrite IH.
Qed.

(** C3.  The search with no path walks the value depth-first in pre-order
    (a node, then the values under each entry of a Fields node, in entry
    order; the items of a Sequence are not entered) and returns the items of
    the first node that is a non-empty Sequence of Fields only; it returns
    nothing exactly when the walk meets no such node.  On
    [{"a": {"b": 1}, "rows": [{"x":1},{"x":2}]}] it returns the two rows under
    "rows".  When no such Sequence occurs anywhere in the value, the search
    returns nothing and the extraction fails with the rows-not-found error. *)
Theorem heuristic_search_first_row_list :
  (forall (obj : value) (rows : list dict),
      _find_first_row_list obj = Some rows <->
      find is_row_list (preorder obj) = Some (VList (map VDict rows)))
  /\ (forall obj : value,
         _find_first_row_list obj = None <->
         find is_row_list (preorder obj) = None)
  /\ _find_first_row_list nested_then_rows =
     Some [[("x", VInt 1)]; [("x", VInt 2)]]
  /\ (forall obj : value,
         (forall x, In x (subvalues obj) -> is_row_list x = false) ->
         _find_first_row_list obj = None
         /\ locate_rows obj None = inl RowsNotFound).
Proof.
  repeat split.
  - rewrite _find_first_row_list_spec.
    destruct (find is_row_list (preorder obj)) as [x|] eqn:E; [|discriminate].
    apply find_some in E as [_ E].
    destruct x as [| | | |[|y items]|]; try discriminate. simpl in E |- *.
    intros [= <-]. do 2 f_equal.
    symmetry. apply (map_VDict_dicts_of (y :: items)). exact E.
  - intros H. rewrite _find_first_row_list_spec, H. simpl.
    now rewrite dicts_of_map_VDict.
  - rewrite _find_first_row_list_spec.
    destruct (find is_row_list (preorder obj)) as [x|] eqn:E; [|reflexivity].
    destruct (rows_of_found _ E) as [rows ->]. discriminate.
  - intros H. now rewrite _find_first_row_list_spec, H.
  - rewrite _find_first_row_list_spec.
    rewrite find_all_false; [reflexivity|].
    intros x Hx. apply H. now apply preorder_subvalues.
  - unfold locate_rows. rewrite _find_first_row_list_spec.
    rewrite find_all_false; [reflexivity|].
    intros x Hx. apply H. now apply preorder_subvalues.
Qed.

(** A document without any Sequence. *)
Lemma heuristic_search_first_row_list_witness :
  _find_first_row_list (VDict [("a", VDict [("b", VStr "1")])]) = None
  /\ locate_rows (VDict [("a", VDict [("b", VStr "1")])]) None = inl RowsNotFound.
Proof.
  apply (proj2 (proj2 (proj2 heuristic_search_first_row_list))).
  simpl. intros x H.
  repeat (destruct H as [<-|H]; [reflexivity|]). destruct H.
Defined.

(** C4, as stated, fails: with the path "r.row" into
    [<r><row>x</row><row><a>1</a></row></r>] the terminal value is a Sequence
    with an item that is not Fields, and the failure is the rows-not-found
    error itself, the one a search without path raises on a document without
    rows; no other error is raised. *)
Lemma explicit_path_shape_error_counterexample :
  walk (_xml_to_dict mixed_xml) (split "." "r.row") =
    Some (VList [VStr "x"; VDict [("a", VStr "1")]])
  /\ locate_rows (_xml_to_dict mixed_xml) (Some "r.row") = inl RowsNotFound
  /\ locate_rows (_xml_to_dict (mkElement "r" (Some "x") [])) None =
     inl RowsNotFound
  /\ ~ (exists e, e <> RowsNotFound /\
                  locate_rows (_xml_to_dict mixed_xml) (Some "r.row") = inl e).
Proof.
  repeat split. intros [e [Hne H]]. compute in H. congruence.
Qed.

(** C4, amended.  With an explicit dotted path whose terminal value is a
    Sequence holding at least one item that is not Fields, the path lookup
    returns nothing, no rows are returned (not even the items that are
    Fields), and the conversion fails with the rows-not-found error, the same
    one as when no rows are located. *)
Theorem explicit_path_mixed_sequence_fails :
  forall (data : value) (path : string) (items : list value),
    path <> EmptyString ->
    walk data (split "." path) = Some (VList items) ->
    forallb is_dict items = false ->
    _follow_row_path data path = None
    /\ locate_rows data (Some path) = inl RowsNotFound
    /\ (forall (json_dumps : value -> string) (root : Element),
           _xml_to_dict root = data ->
           convert_xml_to_csv json_dumps root (Some path) = inl RowsNotFound).
Proof.
  intros data path items Hpath Hwalk Hitems.
  assert (Hfollow : _follow_row_path data path = None).
  { unfold _follow_row_path.
    rewrite (walk_follow_loop _ _ Hwalk) by discriminate.
    rewrite _ensure_list_of_dicts_spec.
    destruct items; simpl in *; [discriminate | now rewrite Hitems]. }
  assert (Hlocate : locate_rows data (Some path) = inl RowsNotFound).
  { now rewrite locate_rows_explicit, Hfollow. }
  repeat split; try assumption.
  intros json_dumps root <-. unfold convert_xml_to_csv. now rewrite Hlocate.
Qed.

Lemma explicit_path_mixed_sequence_fails_witness :
  _follow_row_path (_xml_to_dict mixed_xml) "r.row" = None
  /\ locate_rows (_xml_to_dict mixed_xml) (Some "r.row") = inl RowsNotFound
  /\ (forall (json_dumps : value -> string) (root : Element),
         _xml_to_dict root = _xml_to_dict mixed_xml ->
         convert_xml_to_csv json_dumps root (Some "r.row") = inl RowsNotFound).
Proof.
  apply (@explicit_path_mixed_sequence_fails (_xml_to_dict mixed_xml) "r.row"
           [VStr "x"; VDict [("a", VStr "1")]]).
  - discriminate.
  - reflexivity.
  - reflexivity.
Defined.

(** ** Markup to markup *)




(** ** The differ *)

Section DifferFacts.
Variable json_loads : string -> option value.
Variable dumps_sorted : value -> list string.
Variable unified_diff :
  list string -> list string -> string -> string -> list string.

Lemma compare_step_app (file_paths : list string)
  (rendered : list (list string)) (diffs : list string) (index : nat) :
  compare_step unified_diff file_paths rendered diffs index =
  diffs ++ compare_step unified_diff file_paths rendered [] index.
Proof.
  unfold compare_step.
  destruct (unified_diff _ _ _ _); reflexivity.
Qed.

Lemma fold_compare_step (file_paths : list string)
  (rendered : list (list string)) (indices : list nat) (diffs : list string) :
  fold_left (compare_step unified_diff file_paths rendered) indices diffs =
  diffs ++
  List.concat
    (map (compare_step unified_diff file_paths rendered []) indices).
Proof.
  revert diffs. induction indices as [|i indices IH]; intros diffs; simpl.
  - now rewrite app_nil_r.
  - rewrite IH, compare_step_app, <- app_assoc. reflexivity.
Qed.

Lemma read_payloads_length (fs : files) (file_paths : list string)
  (payloads : list value) :
  read_payloads json_loads fs file_paths = inr payloads ->
  List.length payloads = List.length file_paths.
Proof.
  revert payloads.
  induction file_paths as [|path rest IH]; intros payloads; simpl.
  - now intros [= <-].
  - destruct (_read_json json_loads fs path); [discriminate|].
    destruct (read_payloads json_loads fs rest); [discriminate|].
    intros [= <-]. simpl. f_equal. now apply IH.
Qed.
End DifferFacts.

Lemma nth_map_in_range (A B : Type) (f : A -> B) (l : list A) (i : nat)
  (d : A) (d' : B) :
  i < List.length l -> nth i (map f l) d' = f (nth i l d).
Proof.
  intros H. rewrite (nth_indep (map f l) d' (f d)).
  - apply map_nth.
  - now rewrite length_map.
Qed.

(** C9.  Provided the library diff of two equal line sequences is empty: the
    output of a comparison of two or more readable files is the concatenation
    of one chunk per adjacent pair, in order; the chunk of a pair is the
    library diff of the two renderings, or, when that is empty, the single
    line "No differences detected between A and B."; hence a pair whose
    renderings are identical contributes exactly that one line, and comparing
    a file with itself yields exactly one such line. *)
Theorem identical_pair_one_no_differences_line :
  forall (json_loads : string -> option value)
    (dumps_sorted : value -> list string)
    (unified_diff : list string -> list string -> string -> string -> list string),
    (forall a fromfile tofile, unified_diff a a fromfile tofile = []) ->
    (forall (fs : files) (file_paths : list string) (payloads : list value),
        2 <= List.length file_paths ->
        read_payloads json_loads fs file_paths = inr payloads ->
        exists chunks : list (list string),
          compare_json_files json_loads dumps_sorted unified_diff fs file_paths
            = inr (List.concat chunks)
          /\ List.length chunks = List.length file_paths - 1
          /\ forall i, i + 1 < List.length file_paths ->
               let file_a := nth i file_paths EmptyString in
               let file_b := nth (i + 1) file_paths EmptyString in
               let lines_a := dumps_sorted (nth i payloads VNone) in
               let lines_b := dumps_sorted (nth (i + 1) payloads VNone) in
               nth i chunks [] =
                 match unified_diff lines_a lines_b file_a file_b with
                 | [] => [no_differences file_a file_b]
                 | diff_lines => diff_lines
                 end
               /\ (lines_a = lines_b ->
                   nth i chunks [] = [no_differences file_a file_b]))
    /\ (forall (fs : files) (path : string) (payload : value),
           _read_json json_loads fs path = inr payload ->
           compare_json_files json_loads dumps_sorted unified_diff fs
             [path; path]
           = inr [no_differences path path]).
Proof.
  intros json_loads dumps_sorted unified_diff Hsame. split.
  - intros fs file_paths payloads Hlen Hread.
    pose proof (read_payloads_length _ _ _ Hread) as Hpl.
    unfold compare_json_files.
    destruct (Nat.ltb_spec (List.length file_paths) 2) as [Hlt|_]; [lia|].
    rewrite Hread. cbv zeta.
    set (rendered := map dumps_sorted payloads).
    assert (Hrl : List.length rendered = List.length file_paths).
    { unfold rendered. now rewrite length_map. }
    exists (map (compare_step unified_diff file_paths rendered [])
              (seq 0 (List.length rendered - 1))).
    split; [now rewrite fold_compare_step|].
    split; [now rewrite length_map, length_seq, Hrl|].
    intros i Hi.
    set (file_a := nth i file_paths EmptyString).
    set (file_b := nth (i + 1) file_paths EmptyString).
    set (lines_a := dumps_sorted (nth i payloads VNone)).
    set (lines_b := dumps_sorted (nth (i + 1) payloads VNone)).
    assert (Hchunk :
      nth i (map (compare_step unified_diff file_paths rendered [])
               (seq 0 (List.length rendered - 1))) [] =
      match unified_diff lines_a lines_b file_a file_b with
      | [] => [no_differences file_a file_b]
      | diff_lines => diff_lines
      end).
    { rewrite (nth_map_in_range _ _ 0) by (rewrite length_seq; lia).
      rewrite seq_nth by lia. simpl. unfold compare_step.
      unfold rendered.
      rewrite (nth_map_in_range dumps_sorted payloads VNone) by lia.
      rewrite (nth_map_in_range dumps_sorted payloads VNone) by lia.
      fold file_a file_b lines_a lines_b.
      destruct (unified_diff lines_a lines_b file_a file_b); reflexivity. }
    split; [exact Hchunk|].
    intros Heq. rewrite Hchunk, Heq, Hsame. reflexivity.
  - intros fs path payload Hread. unfold compare_json_files. simpl.
    rewrite Hread. simpl. unfold compare_step. simpl.
    now rewrite Hsame.
Qed.

Lemma toy_diff_same (a : list string) (fromfile tofile : string) :
  toy_diff a a fromfile tofile = [].
Proof.
  unfold toy_diff. destruct (list_eq_dec string_dec a a); congruence.
Qed.

Lemma identical_pair_one_no_differences_line_witness :
  (exists chunks : list (list string),
      compare_json_files toy_loads toy_dumps toy_diff
        (write_text (write_text no_files "a.json" "[1]") "b.json" "[2]")
        ["a.json"; "a.json"; "b.json"]
      = inr (List.concat chunks)
      /\ List.length chunks = 2
      /\ nth 0 chunks [] =
         ["No differences detected between a.json and a.json."])
  /\ compare_json_files toy_loads toy_dumps toy_diff
       (write_text no_files "a.json" "[1]") ["a.json"; "a.json"]
     = inr ["No differences detected between a.json and a.json."].
Proof.
  split.
  - destruct (proj1 (@identical_pair_one_no_differences_line
                       toy_loads toy_dumps toy_diff toy_diff_same)
                (write_text (write_text no_files "a.json" "[1]") "b.json" "[2]")
                ["a.json"; "a.json"; "b.json"] [VStr "[1]"; VStr "[1]"; VStr "[2]"])
      as [chunks [Hout [Hlen Hpair]]].
    + simpl. lia.
    + reflexivity.
    + exists chunks. split; [exact Hout|]. split; [exact Hlen|].
      apply (Hpair 0); [simpl; lia | reflexivity].
  - apply (proj2 (@identical_pair_one_no_differences_line
                    toy_loads toy_dumps toy_diff toy_diff_same)
             (write_text no_files "a.json" "[1]") "a.json" (VStr "[1]")).
    reflexivity.
Defined.

(** ** Delimited files: read, then write *)

Lemma fold_dict_set_fresh (pairs : list (string * value)) (d : dict) :
  NoDup (dict_keys d ++ map fst pairs) ->
  fold_left (fun d kv => dict_set d (fst kv) (snd kv)) pairs d = d ++ pairs.
Proof.
  revert d. induction pairs as [|[k v] pairs IH]; intros d Hnd; simpl.
  - now rewrite app_nil_r.
  - simpl in Hnd. pose proof (NoDup_remove_2 _ _ _ Hnd) as Hk.
    rewrite dict_set_fresh by (intros Hin; apply Hk, in_or_app; now left).
    rewrite IH.
    + now rewrite <- app_assoc.
    + unfold dict_keys in *. rewrite map_app, <- app_assoc. exact Hnd.
Qed.

Lemma map_fst_combine (A B : Type) (l : list A) (l' : list B) :
  List.length l' = List.length l -> map fst (combine l l') = l.
Proof.
  revert l'. induction l as [|x l IH]; intros [|y l']; simpl;
    try discriminate; try reflexivity.
  intros [= H]. now rewrite IH.
Qed.

Lemma reader_row_full (fieldnames row : list string) :
  NoDup fieldnames -> List.length row = List.length fieldnames ->
  reader_row fieldnames row = Some (combine fieldnames (map VStr row)).
Proof.
  intros Hnd Hlen. unfold reader_row.
  destruct (Nat.ltb_spec (List.length fieldnames) (List.length row)); [lia|].
  rewrite Hlen, skipn_all. simpl. f_equal.
  unfold dict_of_pairs. rewrite fold_dict_set_fresh; [reflexivity|].
  simpl. rewrite map_fst_combine; [assumption | now rewrite length_map].
Qed.

Lemma DictReader_full (fieldnames : list string) (lines : list (list string)) :
  fieldnames <> [] -> NoDup fieldnames ->
  Forall (fun row => List.length row = List.length fieldnames) lines ->
  DictReader fieldnames lines =
  Some (map (fun row => combine fieldnames (map VStr row)) lines).
Proof.
  intros Hne Hnd Hall. induction Hall as [|row lines Hrow _ IH]; simpl.
  - reflexivity.
  - rewrite reader_row_full, IH by assumption.
    destruct row; [|reflexivity].
    destruct fieldnames; [congruence | discriminate].
Qed.

Lemma filter_all_true (A : Type) (p : A -> bool) (l : list A) :
  (forall x, In x l -> p x = true) -> filter p l = l.
Proof.
  induction l as [|x l IH]; simpl; intros H; [reflexivity|].
  rewrite (H x) by auto. f_equal. apply IH. auto.
Qed.

Lemma filter_all_false (A : Type) (p : A -> bool) (l : list A) :
  (forall x, In x l -> p x = false) -> filter p l = [].
Proof.
  induction l as [|x l IH]; simpl; intros H; [reflexivity|].
  rewrite (H x) by auto. apply IH. auto.
Qed.

Lemma first_seen_NoDup_id (l : list string) : NoDup l -> first_seen l = l.
Proof.
  induction 1 as [|x l Hx _ IH]; simpl; [reflexivity|].
  rewrite IH. f_equal. apply filter_all_true.
  intros y Hy. apply negb_true_iff, String.eqb_neq. congruence.
Qed.

Lemma add_keys_known (fieldnames keys : list string) :
  (forall k, In k keys -> In k fieldnames) -> add_keys fieldnames keys = fieldnames.
Proof.
  intros H. rewrite add_keys_first_seen, filter_all_false.
  - apply app_nil_r.
  - intros k Hk. apply negb_false_iff, existsb_eqb_In. auto.
Qed.

Lemma _collect_fieldnames_same_keys (fieldnames : list string) (rows : list dict) :
  NoDup fieldnames -> rows <> [] ->
  Forall (fun row => dict_keys row = fieldnames) rows ->
  _collect_fieldnames rows = fieldnames.
Proof.
  intros Hnd Hne Hall. unfold _collect_fieldnames.
  change (fold_left (fun f row => add_keys f (dict_keys row)) rows [] = fieldnames).
  destruct Hall as [|row rows Hrow Hall]; [congruence|]. simpl.
  rewrite Hrow, add_keys_first_seen. simpl.
  rewrite filter_all_true by reflexivity. rewrite first_seen_NoDup_id by assumption.
  clear Hne Hrow. induction Hall as [|r rows Hr _ IH]; simpl; [reflexivity|].
  rewrite Hr, add_keys_known by auto. exact IH.
Qed.

Lemma lookup_combine (keys : list string) (cells : list value) (default : value) :
  NoDup keys -> List.length cells = List.length keys ->
  map (fun key => dict_get_default (combine keys cells) key default) keys = cells.
Proof.
  intros Hnd. revert cells.
  induction Hnd as [|k keys Hk _ IH]; intros [|c cells]; simpl;
    try discriminate; try reflexivity.
  intros [= Hlen]. unfold dict_get_default at 1. simpl.
  rewrite String.eqb_refl. f_equal.
  transitivity
    (map (fun key => dict_get_default (combine keys cells) key default) keys);
    [|now apply IH].
  apply map_ext_in.
  intros key Hkey. unfold dict_get_default. simpl.
  destruct (String.eqb k key) eqn:E; [|reflexivity].
  apply String.eqb_eq in E. congruence.
Qed.

(** C6, as stated, fails: a file with a header and no data row is valid
    input, and is written back with an empty header. *)
Lemma tabular_roundtrip_counterexample :
  exists out,
    convert_csv_to_csv [["name"; "age"]] = Some out
    /\ header out = []
    /\ header out <> ["name"; "age"].
Proof.
  eexists. split; [reflexivity|]. split; [reflexivity | discriminate].
Qed.

(** C6, amended.  For a delimited input whose header is non-empty with
    pairwise distinct names and which has at least one data row, every data
    row having exactly as many fields as the header: reading it and writing
    the rows back gives the same header, in the same order, and the same data
    rows, cell by cell in header order. *)
Theorem tabular_roundtrip :
  forall (fieldnames : list string) (rows : list (list string)),
    fieldnames <> [] ->
    NoDup fieldnames ->
    rows <> [] ->
    Forall (fun row => List.length row = List.length fieldnames) rows ->
    convert_csv_to_csv (fieldnames :: rows) =
    Some (mkCsv fieldnames (map (map VStr) rows)).
Proof.
  intros fieldnames rows Hne Hnd Hrows Hall.
  unfold convert_csv_to_csv, _read_csv_rows.
  rewrite DictReader_full by assumption. simpl. f_equal.
  unfold _write_csv.
  rewrite (@_collect_fieldnames_same_keys fieldnames).
  - f_equal. rewrite map_map. apply map_ext_in. intros row Hrow.
    apply lookup_combine; [assumption|].
    rewrite length_map. eapply Forall_forall in Hall; eauto.
  - assumption.
  - destruct rows; [congruence | discriminate].
  - apply Forall_forall. intros d Hd.
    apply in_map_iff in Hd as [row [<- Hrow]].
    apply map_fst_combine. rewrite length_map.
    eapply Forall_forall in Hall; eauto.
Qed.

Lemma tabular_roundtrip_witness :
  convert_csv_to_csv [["name"; "age"]; ["Alice"; "30"]; ["Bob"; "25"]] =
  Some (mkCsv ["name"; "age"]
          [[VStr "Alice"; VStr "30"]; [VStr "Bob"; VStr "25"]]).
Proof.
  apply (@tabular_roundtrip ["name"; "age"] [["Alice"; "30"]; ["Bob"; "25"]]).
  - discriminate.
  - repeat constructor; simpl; intuition discriminate.
  - discriminate.
  - repeat constructor.
Defined.

(** ** Markup decode *)

Lemma _element_to_data_children (t : string) (txt : option string)
  (kid : Element) (kids : list Element) :
  _element_to_data (mkElement t txt (kid :: kids)) =
  VDict (merge_all [] (map (fun c => (tag c, _element_to_data c)) (kid :: kids))).
Proof.
  unfold merge_all. rewrite fold_left_via_map. reflexivity.
Qed.

Lemma _element_to_data_not_list (element : Element) :
  is_list (_element_to_data element) = false.
Proof.
  destruct element as [t txt [|kid kids]]; reflexivity.
Qed.

Lemma merge_child_set (result : dict) (k : string) (v : value) :
  exists merged, merge_child result k v = dict_set result k merged.
Proof.
  unfold merge_child.
  destruct (dict_lookup result k) as [[]|]; eauto.
Qed.

Lemma merge_all_keys (decoded : list (string * value)) (result : dict) :
  dict_keys (merge_all result decoded) =
  add_keys (dict_keys result) (map fst decoded).
Proof.
  unfold merge_all, add_keys. revert result.
  induction decoded as [|[k v] decoded IH]; intros result; simpl.
  - reflexivity.
  - rewrite IH. f_equal.
    destruct (merge_child_set result k v) as [merged ->].
    apply dict_keys_set.
Qed.

Lemma merge_all_keys_first_seen (decoded : list (string * value)) :
  dict_keys (merge_all [] decoded) = first_seen (map fst decoded).
Proof.
  rewrite merge_all_keys, add_keys_first_seen. simpl.
  now rewrite filter_all_true.
Qed.

Lemma merge_all_snoc (result : dict) (decoded : list (string * value))
  (k : string) (v : value) :
  merge_all result (decoded ++ [(k, v)]) =
  merge_child (merge_all result decoded) k v.
Proof.
  unfold merge_all. now rewrite fold_left_app.
Qed.

(** What a tag is mapped to after the loop: nothing, the one value decoded
    under it, or the list of the values decoded under it, in order. *)
Lemma merge_all_lookup (decoded : list (string * value)) (t : string) :
  Forall (fun tv => is_list (snd tv) = false) decoded ->
  dict_lookup (merge_all [] decoded) t =
  match map snd (filter (fun tv => String.eqb (fst tv) t) decoded) with
  | [] => None
  | [v] => Some v
  | vs => Some (VList vs)
  end.
Proof.
  induction decoded as [|[k v] decoded IH] using rev_ind; intros Hall.
  - reflexivity.
  - apply Forall_app in Hall as [Hall Hv].
    specialize (IH Hall). rewrite merge_all_snoc.
    rewrite filter_app, map_app. simpl.
    assert (Hgroup : Forall (fun x => is_list x = false)
              (map snd (filter (fun tv => String.eqb (fst tv) t) decoded))).
    { apply Forall_forall. intros x Hx.
      apply in_map_iff in Hx as [tv [<- Htv]]. apply filter_In in Htv as [Htv _].
      eapply Forall_forall in Hall; eauto. }
    destruct (String.eqb k t) eqn:E; simpl.
    + apply String.eqb_eq in E; subst k. unfold merge_child. rewrite IH.
      destruct (map snd (filter (fun tv => String.eqb (fst tv) t) decoded))
        as [|v0 [|v1 vs]]; simpl.
      * now rewrite dict_lookup_set, String.eqb_refl.
      * inversion Hgroup as [|? ? Hv0 _]; subst.
        destruct v0; try discriminate;
          now rewrite dict_lookup_set, String.eqb_refl.
      * now rewrite dict_lookup_set, String.eqb_refl.
    + rewrite app_nil_r.
      destruct (merge_child_set (merge_all [] decoded) k v) as [merged ->].
      now rewrite dict_lookup_set, E.
Qed.

Lemma unique_keys_items (items : list value) :
  unique_keys (VList items) -> Forall unique_keys items.
Proof.
  inversion 1; [discriminate | assumption].
Qed.

Lemma merge_child_unique (result : dict) (k : string) (v : value) :
  Forall (fun kv => unique_keys (snd kv)) result -> unique_keys v ->
  Forall (fun kv => unique_keys (snd kv)) (merge_child result k v).
Proof.
  intros Hr Hv. unfold merge_child.
  destruct (dict_lookup result k) as [existing|] eqn:E.
  - apply dict_lookup_In in E.
    assert (He : unique_keys existing)
      by (eapply Forall_forall in Hr; eauto; exact Hr).
    destruct existing; apply dict_set_Forall; auto; intros ?; simpl;
      try (apply unique_keys_list;
           apply Forall_cons; [assumption|];
           apply Forall_cons; [assumption | apply Forall_nil]).
    apply unique_keys_list, Forall_app. split.
    + now apply unique_keys_items.
    + apply Forall_cons; [assumption | apply Forall_nil].
  - apply dict_set_Forall; auto.
Qed.

Lemma merge_all_unique (decoded : list (string * value)) (result : dict) :
  Forall (fun kv => unique_keys (snd kv)) result ->
  Forall (fun tv => unique_keys (snd tv)) decoded ->
  Forall (fun kv => unique_keys (snd kv)) (merge_all result decoded).
Proof.
  unfold merge_all. intros Hr Hd. revert result Hr.
  induction Hd as [|[k v] decoded Hv _ IH]; intros result Hr; simpl.
  - assumption.
  - apply IH. now apply merge_child_unique.
Qed.

Lemma _element_to_data_unique_keys (element : Element) :
  unique_keys (_element_to_data element).
Proof.
  induction element as [t txt kids IH] using Element_nested_ind.
  destruct kids as [|kid kids].
  - now apply unique_keys_scalar.
  - rewrite _element_to_data_children. apply unique_keys_dict.
    + rewrite merge_all_keys_first_seen. apply first_seen_NoDup.
    + apply merge_all_unique; [constructor|].
      apply Forall_map. exact IH.
Qed.

Lemma filter_map_decoded (t : string) (kids : list Element) :
  map snd
    (filter (fun tv => String.eqb (fst tv) t)
       (map (fun c => (tag c, _element_to_data c)) kids)) =
  map _element_to_data (filter (fun child => String.eqb (tag child) t) kids).
Proof.
  induction kids as [|kid kids IH]; simpl; [reflexivity|].
  destruct (String.eqb (tag kid) t); simpl; now rewrite IH.
Qed.

(** C2.  In whatever markup decode produces, every Fields value, at any
    depth, maps each key once.  For an element with children the decoded
    Fields has the children's tags as keys, each once, in first-seen order,
    and a tag is mapped to the value decoded from its child when it occurs
    once, and to the Sequence of the values decoded from its children, in
    document order, when it occurs twice or more. *)
Theorem decoded_fields_merge_repeated_tags :
  forall element : Element,
    unique_keys (_element_to_data element)
    /\ (children element <> [] ->
        exists result : dict,
          _element_to_data element = VDict result
          /\ NoDup (dict_keys result)
          /\ dict_keys result = first_seen (map tag (children element))
          /\ forall t : string,
               dict_lookup result t =
               match map _element_to_data
                       (filter (fun child => String.eqb (tag child) t)
                          (children element)) with
               | [] => None
               | [v] => Some v
               | vs => Some (VList vs)
               end).
Proof.
  intros element. split; [apply _element_to_data_unique_keys|].
  destruct element as [t txt [|kid kids]];
    [intros H; now destruct H|]. intros _.
  cbn [children].
  exists (merge_all [] (map (fun c => (tag c, _element_to_data c)) (kid :: kids))).
  split; [apply _element_to_data_children|].
  rewrite merge_all_keys_first_seen, map_map. cbn [fst].
  split; [apply first_seen_NoDup|]. split; [reflexivity|].
  intros t'. rewrite merge_all_lookup, filter_map_decoded; [reflexivity|].
  apply Forall_map, Forall_forall. intros c _.
  apply _element_to_data_not_list.
Qed.

Lemma decoded_fields_merge_repeated_tags_witness :
  exists result : dict,
    _element_to_data interleaved_xml = VDict result
    /\ NoDup (dict_keys result)
    /\ dict_keys result = ["a"; "b"]
    /\ forall t : string,
         dict_lookup result t =
         match map _element_to_data
                 (filter (fun child => String.eqb (tag child) t)
                    (children interleaved_xml)) with
         | [] => None
         | [v] => Some v
         | vs => Some (VList vs)
         end.
Proof.
  apply (proj2 (decoded_fields_merge_repeated_tags interleaved_xml)).
  discriminate.
Defined.

Example decode_interleaved :
  _element_to_data interleaved_xml =
  VDict [("a", VList [VStr "1"; VStr "3"; VStr "4"]); ("b", VStr "2")].
Proof. reflexivity. Qed.

(** ** Stripping *)








(** ** Markup round trip *)












(** The pretty-printed form of the people document, with its indentation,
    decodes like the document itself. *)
Example pretty_printed_same_content :
  same_content people_xml
    (mkElement "rows" (Some "
  ")
       [ mkElement "row" (Some "
    ")
           [mkElement "name" (Some "Alice") []; mkElement "age" (Some " 30 ") []];
         mkElement "row" None
           [mkElement "name" (Some "Bob") []; mkElement "age" (Some "25") []] ]).
Proof. reflexivity. Qed.


(** ** Sequences in decoded documents *)

Lemma sequences_ge2_dict (entries : dict) :
  sequences_ge2 (VDict entries) = true <->
  Forall (fun kv => sequences_ge2 (snd kv) = true) entries.
Proof.
  cbn [sequences_ge2]. rewrite forallb_forall, Forall_forall.
  split; intros H [k v] Hkv; apply (H (k, v) Hkv).
Qed.

Lemma sequences_ge2_pair (a b : value) :
  sequences_ge2 a = true -> sequences_ge2 b = true ->
  sequences_ge2 (VList [a; b]) = true.
Proof.
  intros Ha Hb. change (true && (sequences_ge2 a && (sequences_ge2 b && true)) = true).
  now rewrite Ha, Hb.
Qed.

Lemma merge_child_sequences (result : dict) (k : string) (v : value) :
  Forall (fun kv => sequences_ge2 (snd kv) = true) result ->
  sequences_ge2 v = true ->
  Forall (fun kv => sequences_ge2 (snd kv) = true) (merge_child result k v).
Proof.
  intros Hr Hv. unfold merge_child.
  destruct (dict_lookup result k) as [existing|] eqn:E.
  - apply dict_lookup_In in E.
    assert (He : sequences_ge2 existing = true)
      by (eapply Forall_forall in Hr; eauto; exact Hr).
    destruct existing; apply dict_set_Forall; auto; intros ?;
      cbn [snd]; try discriminate He;
      try (now apply sequences_ge2_pair).
    cbn [sequences_ge2] in He |- *.
    apply andb_prop in He as [Hlen Hitems]. apply Nat.leb_le in Hlen.
    rewrite forallb_app, Hitems, length_app. cbn [forallb]. rewrite Hv.
    cbn [List.length andb]. rewrite andb_true_r. apply Nat.leb_le. lia.
  - apply dict_set_Forall; auto.
Qed.

Lemma merge_all_sequences (decoded : list (string * value)) (result : dict) :
  Forall (fun kv => sequences_ge2 (snd kv) = true) result ->
  Forall (fun tv => sequences_ge2 (snd tv) = true) decoded ->
  Forall (fun kv => sequences_ge2 (snd kv) = true) (merge_all result decoded).
Proof.
  unfold merge_all. intros Hr Hd. revert result Hr.
  induction Hd as [|[k v] decoded Hv _ IH]; intros result Hr; simpl.
  - assumption.
  - apply IH. now apply merge_child_sequences.
Qed.

Lemma _element_to_data_sequences (element : Element) :
  sequences_ge2 (_element_to_data element) = true.
Proof.
  induction element as [t txt kids IH] using Element_nested_ind.
  destruct kids as [|kid kids]; [reflexivity|].
  rewrite _element_to_data_children. apply sequences_ge2_dict.
  apply merge_all_sequences; [constructor|].
  apply Forall_map. exact IH.
Qed.

Lemma sequences_ge2_subvalues (v x : value) :
  sequences_ge2 v = true -> In x (subvalues v) -> sequences_ge2 x = true.
Proof.
  induction v as [| | | |items IH|entries IH] using value_nested_ind;
    cbn [subvalues]; intros Hv [<-|Hx]; try assumption; try destruct Hx.
  - cbn [sequences_ge2] in Hv. apply andb_prop in Hv as [_ Hv].
    rewrite forallb_forall in Hv.
    apply in_flat_map in Hx as [item [Hitem Hx]].
    eapply Forall_forall in IH; eauto.
  - apply sequences_ge2_dict in Hv.
    apply in_flat_map in Hx as [[k child] [Hkv Hx]].
    eapply Forall_forall in IH; eauto. eapply Forall_forall in Hv; eauto.
Qed.

Lemma decoded_sequences_nonempty (root : Element) (x : value) :
  In x (subvalues (_xml_to_dict root)) -> x <> VList [].
Proof.
  intros Hx ->.
  assert (H : sequences_ge2 (VList []) = true); [|discriminate H].
  apply (@sequences_ge2_subvalues (_xml_to_dict root)); [|exact Hx].
  unfold _xml_to_dict. cbn [sequences_ge2 forallb].
  now rewrite _element_to_data_sequences.
Qed.

(** C10.  Row extraction never yields an empty row set.  The validator
    answers "not found" on the empty Sequence; whatever the document and the
    path, located rows are never the empty list; an explicit path ending at an
    empty Sequence, and a search that meets only empty Sequences, both fail
    with the rows-not-found error; and a markup-to-tabular conversion that
    succeeds writes at least one record.  Besides, a decoded markup document
    holds no empty Sequence at all. *)
Theorem row_extraction_never_empty :
  _ensure_list_of_dicts [] = None
  /\ (forall (data : value) (row_path : option string) (rows : list dict),
         locate_rows data row_path = inr rows -> rows <> [])
  /\ (forall (data : value) (path : string),
         path <> EmptyString ->
         walk data (split "." path) = Some (VList []) ->
         _follow_row_path data path = None
         /\ locate_rows data (Some path) = inl RowsNotFound)
  /\ (forall obj : value,
         (forall x, In x (preorder obj) -> is_list x = true -> x = VList []) ->
         _find_first_row_list obj = None
         /\ locate_rows obj None = inl RowsNotFound)
  /\ (forall (json_dumps : value -> string) (root : Element)
        (row_path : option string),
         (forall file, convert_xml_to_csv json_dumps root row_path = inr file ->
                       records file <> [])
         /\ (forall e, convert_xml_to_csv json_dumps root row_path = inl e ->
                       e = RowsNotFound))
  /\ (forall (root : Element) (x : value),
         In x (subvalues (_xml_to_dict root)) -> x <> VList []).
Proof.
  split; [reflexivity|]. split; [exact locate_rows_nonempty|].
  split; [|split; [|split]]; [| | |exact decoded_sequences_nonempty].
  - intros data path Hpath Hwalk.
    assert (Hfollow : _follow_row_path data path = None).
    { unfold _follow_row_path.
      now rewrite (walk_follow_loop _ _ Hwalk) by discriminate. }
    split; [assumption|]. now rewrite locate_rows_explicit, Hfollow.
  - intros obj H.
    assert (Hfind : _find_first_row_list obj = None).
    { rewrite _find_first_row_list_spec, find_all_false; [reflexivity|].
      intros x Hx. destruct x; try reflexivity.
      now rewrite (H _ Hx eq_refl). }
    split; [assumption|]. unfold locate_rows. now rewrite Hfind.
  - intros json_dumps root row_path. unfold convert_xml_to_csv.
    destruct (locate_rows (_xml_to_dict root) row_path) as [e|rows] eqn:E.
    + split; [discriminate|]. intros e' [= <-].
      unfold locate_rows in E.
      destruct row_path as [[|c path]|];
        match type of E with
        | match ?r with _ => _ end = _ => destruct r; congruence
        end.
    + split; [|discriminate]. intros file [= <-]. simpl.
      apply locate_rows_nonempty in E.
      destruct rows; [congruence | discriminate].
Qed.

Lemma row_extraction_never_empty_witness :
  (_follow_row_path (VDict [("rows", VList [])]) "rows" = None
   /\ locate_rows (VDict [("rows", VList [])]) (Some "rows") = inl RowsNotFound)
  /\ (_find_first_row_list (VDict [("rows", VList [])]) = None
      /\ locate_rows (VDict [("rows", VList [])]) None = inl RowsNotFound)
  /\ records (_write_csv (map (_normalise_row (fun _ => EmptyString)) [[("name", VStr "Alice"); ("age", VStr "30")]; [("name", VStr "Bob"); ("age", VStr "25")]])) <> [].
Proof.
  split; [|split].
  - apply (proj1 (proj2 (proj2 row_extraction_never_empty))
             (VDict [("rows", VList [])]) "rows").
    + discriminate.
    + reflexivity.
  - apply (proj1 (proj2 (proj2 (proj2 row_extraction_never_empty)))
             (VDict [("rows", VList [])])).
    simpl. intros x H.
    repeat (destruct H as [<-|H]; [try discriminate; reflexivity|]).
    destruct H.
  - apply (proj1 (proj1 (proj2 (proj2 (proj2 (proj2 row_extraction_never_empty))))
                    (fun _ => EmptyString) people_xml None)).
    reflexivity.
Defined.

(** ** Further examples *)

(** The people document converts to header name,age and the records
    Alice,30 and Bob,25, with or without the path. *)
Example people_to_rows :
  forall json_dumps : value -> string,
    convert_xml_to_csv json_dumps people_xml None =
      inr (mkCsv ["name"; "age"]
             [[VStr "Alice"; VStr "30"]; [VStr "Bob"; VStr "25"]])
    /\ convert_xml_to_csv json_dumps people_xml (Some "rows.row") =
       convert_xml_to_csv json_dumps people_xml None.
Proof. intros json_dumps. split; reflexivity. Qed.

(** The search does not enter the items of a Sequence it rejects. *)
Example rejected_sequence_not_entered :
  _find_first_row_list
    (VDict [("a", VList [VStr "x";
                         VDict [("rows", VList [VDict [("k", VStr "1")];
                                                VDict [("k", VStr "2")]])]])])
  = None.
Proof. reflexivity. Qed.

(** After a rejected Sequence the search goes on with the next entry. *)
Example search_continues_after_rejection :
  _find_first_row_list
    (VDict [("a", VList [VStr "x"; VDict [("k", VStr "1")]]);
            ("b", VList [VDict [("k", VStr "2")]; VDict [("k", VStr "3")]])])
  = Some [[("k", VStr "2")]; [("k", VStr "3")]].
Proof. reflexivity. Qed.

(** A repeated header name keeps one column, with the later cell. *)
Example repeated_header_name_collapses :
  convert_csv_to_csv [["a"; "a"]; ["1"; "2"]] =
  Some (mkCsv ["a"] [[VStr "2"]]).
Proof. reflexivity. Qed.

(** A short row is completed with [None] cells, a blank record is dropped. *)
Example short_row_is_completed :
  convert_csv_to_csv [["name"; "age"]; []; ["Bob"]] =
  Some (mkCsv ["name"; "age"] [[VStr "Bob"; VNone]]).
Proof. reflexivity. Qed.

(** Markup decode of an element without children or text is empty text. *)
Example decode_empty_element :
  _xml_to_dict (mkElement "r" None []) = VDict [("r", VStr EmptyString)].
Proof. reflexivity. Qed.

(** * Further properties *)

(** ** Tables through markup *)



















(** ** Documents to tables *)

Lemma forallb_is_dict_map (rows : list dict) :
  forallb is_dict (map VDict rows) = true.
Proof. induction rows; simpl; auto. Qed.

(** X3.  The JSON-to-CSV conversion succeeds exactly on a list whose items
    are all objects, and then writes the rows as they are, one record per
    item; anything else, a non-list or a list with one item that is not an
    object, raises the list-of-objects error.  The empty list is accepted and
    gives a file with an empty header and no record. *)
Theorem json_to_csv_accepts_lists_of_objects :
  forall json_data : value,
    (forall file,
        convert_json_to_csv json_data = inr file <->
        exists rows : list dict,
          json_data = VList (map VDict rows) /\ file = _write_csv rows)
    /\ (forall e, convert_json_to_csv json_data = inl e -> e = NotListOfObjects)
    /\ (forall file, convert_json_to_csv json_data = inr file ->
          exists items, json_data = VList items
                        /\ List.length (records file) = List.length items)
    /\ (json_data = VList [] ->
        convert_json_to_csv json_data = inr (mkCsv [] [])).
Proof.
  intros json_data. split; [|split; [|split]].
  - intros file. split.
    + destruct json_data; try discriminate. cbn [convert_json_to_csv].
      destruct (forallb is_dict items) eqn:E; [|discriminate].
      intros [= <-]. exists (dicts_of items).
      now rewrite map_VDict_dicts_of.
    + intros [rows [-> ->]]. cbn [convert_json_to_csv].
      now rewrite forallb_is_dict_map, dicts_of_map_VDict.
  - intros e. destruct json_data; cbn [convert_json_to_csv]; try congruence.
    destruct (forallb is_dict items); congruence.
  - intros file. destruct json_data; try discriminate.
    cbn [convert_json_to_csv].
    destruct (forallb is_dict items) eqn:E; [|discriminate].
    intros [= <-]. exists items. split; [reflexivity|].
    cbn [_write_csv records]. now rewrite length_map, dicts_of_length.
  - intros ->. reflexivity.
Qed.

Lemma json_to_csv_accepts_lists_of_objects_witness :
  convert_json_to_csv (VList []) = inr (mkCsv [] []).
Proof.
  apply (proj2 (proj2 (proj2 (json_to_csv_accepts_lists_of_objects (VList []))))).
  reflexivity.
Defined.



(** ** Decoded documents *)







(** ** Paths *)

Lemma follow_loop_walk (keys : list string) (v : value) :
  follow_loop v keys =
  match walk v keys with Some x => x | None => VNone end.
Proof.
  revert v. induction keys as [|key keys IH]; intros v; [reflexivity|].
  cbn [follow_loop walk]. destruct v; try reflexivity.
  unfold dict_get, dict_get_default.
  destruct (dict_lookup entries key) as [child|]; [|reflexivity].
  destruct child; try apply IH.
  destruct keys; reflexivity.
Qed.

(** X6.  Following a dotted path is a plain chain of lookups through Fields:
    when a key is missing, when a value on the way is not a Fields, or when
    the value reached is null or a scalar, nothing is found; a Fields reached
    at the end is returned as one row; a Sequence reached at the end is
    returned when it is non-empty and holds Fields only, and rejected as a
    whole otherwise. *)
Theorem follow_row_path_is_lookup_chain :
  forall (data : value) (dotted_path : string),
    _follow_row_path data dotted_path =
    match walk data (split "." dotted_path) with
    | Some (VDict d) => Some [d]
    | Some (VList items) =>
        if is_row_list (VList items) then Some (dicts_of items) else None
    | _ => None
    end.
Proof.
  intros data dotted_path. unfold _follow_row_path.
  rewrite follow_loop_walk.
  destruct (walk data (split "." dotted_path)) as [[]|]; try reflexivity.
  apply _ensure_list_of_dicts_spec.
Qed.

(** ** Rows of text *)

Lemma dict_of_pairs_Forall (Q : string * value -> Prop)
  (pairs : list (string * value)) :
  Forall Q pairs -> Forall Q (dict_of_pairs pairs).
Proof.
  unfold dict_of_pairs. intros H.
  assert (Hgen : forall d, Forall Q d ->
            Forall Q (fold_left (fun d kv => dict_set d (fst kv) (snd kv)) pairs d)).
  { induction H as [|[k v] pairs Hkv _ IH]; intros d Hd; simpl; [assumption|].
    apply IH. clear IH. induction Hd as [|[k0 v0] d H0 Hd IHd]; simpl.
    - auto.
    - destruct (String.eqb k0 k) eqn:E.
      + apply String.eqb_eq in E. subst k0. constructor; assumption.
      + constructor; assumption. }
  apply Hgen. constructor.
Qed.

Lemma dict_of_pairs_NoDup (pairs : list (string * value)) :
  NoDup (dict_keys (dict_of_pairs pairs)).
Proof.
  unfold dict_of_pairs.
  apply fold_left_invariant with (P := fun d => NoDup (dict_keys d)).
  - constructor.
  - intros d kv Hd. now apply dict_set_NoDup.
Qed.

Lemma dict_of_pairs_keys (pairs : list (string * value)) :
  dict_keys (dict_of_pairs pairs) = first_seen (map fst pairs).
Proof.
  unfold dict_of_pairs.
  assert (Hgen : forall d,
            dict_keys (fold_left (fun d kv => dict_set d (fst kv) (snd kv)) pairs d)
            = add_keys (dict_keys d) (map fst pairs)).
  { unfold add_keys. induction pairs as [|[k v] pairs IH]; intros d; simpl.
    - reflexivity.
    - rewrite IH. f_equal. apply dict_keys_set. }
  rewrite Hgen, add_keys_first_seen. simpl. now rewrite filter_all_true.
Qed.

Lemma _normalise_row_values (json_dumps : value -> string) (row : dict) :
  Forall (fun kv => exists s, snd kv = VStr s) (_normalise_row json_dumps row).
Proof.
  unfold _normalise_row. apply dict_of_pairs_Forall, Forall_map, Forall_forall.
  intros kv _. cbn [snd]. eauto.
Qed.

(** X7.  Normalising a row keeps its field names, each once, in first-seen
    order, turns every value into text, and is idempotent. *)
Theorem normalise_row_makes_text :
  forall (json_dumps : value -> string) (row : dict),
    dict_keys (_normalise_row json_dumps row) = first_seen (dict_keys row)
    /\ Forall (fun kv => exists s, snd kv = VStr s)
         (_normalise_row json_dumps row)
    /\ _normalise_row json_dumps (_normalise_row json_dumps row) =
       _normalise_row json_dumps row.
Proof.
  intros json_dumps row. split; [|split].
  - unfold _normalise_row. rewrite dict_of_pairs_keys, map_map. reflexivity.
  - apply _normalise_row_values.
  - set (d := _normalise_row json_dumps row).
    assert (Hvalues : Forall (fun kv => exists s, snd kv = VStr s) d)
      by apply _normalise_row_values.
    assert (Hkeys : NoDup (dict_keys d)) by apply dict_of_pairs_NoDup.
    unfold _normalise_row at 1.
    assert (Hmap : map (fun kv => (fst kv, VStr (_coerce_value json_dumps (snd kv)))) d = d).
    { rewrite <- (map_id d) at 2. apply map_ext_in. intros [k v] Hkv.
      eapply Forall_forall in Hvalues; eauto. destruct Hvalues as [s Hs].
      cbn [fst snd] in *. subst v. reflexivity. }
    rewrite Hmap. unfold dict_of_pairs.
    rewrite fold_dict_set_fresh; [reflexivity | exact Hkeys].
Qed.

Lemma dict_get_default_Forall (Q : value -> Prop) (d : dict) (k : string)
  (default : value) :
  Forall (fun kv => Q (snd kv)) d -> Q default -> Q (dict_get_default d k default).
Proof.
  intros Hd Hdef. unfold dict_get_default.
  destruct (dict_lookup d k) as [v|] eqn:E; [|assumption].
  apply dict_lookup_In in E. eapply Forall_forall in Hd; eauto. exact Hd.
Qed.

(** X8.  A table written from markup is rectangular and holds text only:
    the header has no repeated name, and every record has one cell per header
    field, each cell a string. *)
Theorem xml_to_csv_writes_text_cells :
  forall (json_dumps : value -> string) (root : Element)
    (row_path : option string) (file : csv_file),
    convert_xml_to_csv json_dumps root row_path = inr file ->
    NoDup (header file)
    /\ Forall (fun record =>
                 List.length record = List.length (header file)
                 /\ Forall (fun cell => exists s, cell = VStr s) record)
         (records file).
Proof.
  intros json_dumps root row_path file. unfold convert_xml_to_csv.
  destruct (locate_rows (_xml_to_dict root) row_path) as [e|rows];
    [discriminate|].
  intros [= <-]. unfold _write_csv. cbn [header records]. split.
  - rewrite _collect_fieldnames_first_seen. apply first_seen_NoDup.
  - apply Forall_map, Forall_map, Forall_forall. intros row _.
    split; [apply length_map|].
    apply Forall_map, Forall_forall. intros key _.
    apply dict_get_default_Forall with (Q := fun cell => exists s, cell = VStr s).
    + apply _normalise_row_values.
    + eauto.
Qed.

Lemma xml_to_csv_writes_text_cells_witness :
  NoDup ["name"; "age"]
  /\ Forall (fun record =>
               List.length record = List.length ["name"; "age"]
               /\ Forall (fun cell => exists s, cell = VStr s) record)
       [[VStr "Alice"; VStr "30"]; [VStr "Bob"; VStr "25"]].
Proof.
  apply (@xml_to_csv_writes_text_cells (fun _ => EmptyString) people_xml None
           (mkCsv ["name"; "age"]
              [[VStr "Alice"; VStr "30"]; [VStr "Bob"; VStr "25"]])).
  reflexivity.
Defined.

(** ** What encode cannot tell apart *)

Lemma fold_entry_children (entries : dict) :
  map tag (flat_map entry_children entries) =
  flat_map (fun kv => repeat (fst kv)
                        (match snd kv with
                         | VList items => List.length items
                         | _ => 1
                         end)) entries.
Proof.
  induction entries as [|[k v] entries IH]; [reflexivity|].
  cbn [flat_map]. rewrite map_app, IH. f_equal.
  unfold entry_children. cbn [fst snd].
  destruct v; cbn [map repeat]; rewrite ?_populate_xml_tag; try reflexivity.
  induction items as [|item items IHi]; [reflexivity|].
  cbn [map List.length repeat]. now rewrite _populate_xml_tag, IHi.
Qed.

(** X9.  Populating an element with a Fields value leaves its tag and text
    alone and appends children entry by entry: for an entry holding a
    Sequence, one child per item, and otherwise one child, every child tagged
    with the entry's key.  An entry holding an empty Sequence adds nothing. *)
Theorem fields_content_children_by_key :
  forall (element : Element) (entries : dict),
    tag (_populate_xml element (VDict entries)) = tag element
    /\ text (_populate_xml element (VDict entries)) = text element
    /\ exists added : list Element,
         children (_populate_xml element (VDict entries)) =
           children element ++ added
         /\ map tag added =
            flat_map (fun kv => repeat (fst kv)
                                  (match snd kv with
                                   | VList items => List.length items
                                   | _ => 1
                                   end)) entries.
Proof.
  intros element entries. rewrite _populate_xml_dict. cbn [tag text children].
  split; [reflexivity|]. split; [reflexivity|].
  exists (flat_map entry_children entries).
  split; [reflexivity | apply fold_entry_children].
Qed.

(** X10.  Encoding loses the difference between a one-item Sequence and its
    item, between an entry holding an empty Sequence and no entry, and
    between null and empty text: in any Fields value, replacing an entry
    [(key, [v])] by [(key, v)], for [v] not itself a Sequence, or dropping an
    entry [(key, [])], builds the same element. *)
Theorem encode_cannot_distinguish :
  forall (element : Element) (before after : dict) (key : string) (v : value),
    (is_list v = false ->
     _populate_xml element (VDict (before ++ (key, VList [v]) :: after)) =
     _populate_xml element (VDict (before ++ (key, v) :: after)))
    /\ _populate_xml element (VDict (before ++ (key, VList []) :: after)) =
       _populate_xml element (VDict (before ++ after))
    /\ _populate_xml element VNone = _populate_xml element (VStr EmptyString).
Proof.
  intros element before after key v. split; [|split].
  - intros Hv. rewrite !_populate_xml_dict, !flat_map_app. cbn [flat_map].
    do 3 f_equal. unfold entry_children. cbn [fst snd map].
    destruct v; try reflexivity. discriminate Hv.
  - rewrite !_populate_xml_dict, !flat_map_app. reflexivity.
  - reflexivity.
Qed.

Lemma encode_cannot_distinguish_witness :
  _populate_xml (new_element "r")
    (VDict ([("id", VStr "7")] ++ ("tag", VList [VStr "x"]) :: [("n", VStr "1")])) =
  _populate_xml (new_element "r")
    (VDict ([("id", VStr "7")] ++ ("tag", VStr "x") :: [("n", VStr "1")])).
Proof.
  apply (proj1 (@encode_cannot_distinguish (new_element "r")
                  [("id", VStr "7")] [("n", VStr "1")] "tag" (VStr "x"))).
  reflexivity.
Defined.

(** ** More on the differ *)

Section MoreDifferFacts.
Variable json_loads : string -> option value.
Variable dumps_sorted : value -> list string.
Variable unified_diff :
  list string -> list string -> string -> string -> list string.

Lemma compare_json_files_output (fs : files) (file_paths : list string)
  (payloads : list value) :
  2 <= List.length file_paths ->
  read_payloads json_loads fs file_paths = inr payloads ->
  compare_json_files json_loads dumps_sorted unified_diff fs file_paths =
  inr (List.concat
         (map (compare_step unified_diff file_paths
                 (map dumps_sorted payloads) [])
            (seq 0 (List.length payloads - 1)))).
Proof.
  intros Hlen Hread. unfold compare_json_files.
  destruct (Nat.ltb_spec (List.length file_paths) 2) as [Hlt|_]; [lia|].
  rewrite Hread. cbv zeta. now rewrite fold_compare_step, length_map.
Qed.

Lemma compare_json_files_inr (fs : files) (file_paths diffs : list string) :
  compare_json_files json_loads dumps_sorted unified_diff fs file_paths
    = inr diffs ->
  2 <= List.length file_paths
  /\ exists payloads, read_payloads json_loads fs file_paths = inr payloads.
Proof.
  unfold compare_json_files.
  destruct (Nat.ltb_spec (List.length file_paths) 2) as [Hlt|Hge];
    [discriminate|].
  destruct (read_payloads json_loads fs file_paths) as [e|payloads];
    [discriminate|].
  intros _. eauto.
Qed.

Lemma compare_step_nonempty (file_paths : list string)
  (rendered : list (list string)) (index : nat) :
  1 <= List.length (compare_step unified_diff file_paths rendered [] index).
Proof.
  unfold compare_step.
  destruct (unified_diff _ _ _ _); simpl; lia.
Qed.

Lemma concat_length_lower (A B : Type) (f : A -> list B) (l : list A) :
  (forall x, 1 <= List.length (f x)) ->
  List.length l <= List.length (List.concat (map f l)).
Proof.
  intros Hf. induction l as [|x l IH]; simpl; [lia|].
  rewrite length_app. specialize (Hf x). lia.
Qed.

Lemma read_payloads_readable (fs : files) (file_paths : list string) :
  (exists payloads, read_payloads json_loads fs file_paths = inr payloads) <->
  Forall (fun path => exists payload, _read_json json_loads fs path = inr payload)
    file_paths.
Proof.
  induction file_paths as [|path rest IH]; simpl.
  - split; [constructor | eauto].
  - split.
    + intros [payloads H].
      destruct (_read_json json_loads fs path) as [e|payload] eqn:E;
        [discriminate|].
      destruct (read_payloads json_loads fs rest) as [e|ps]; [discriminate|].
      constructor; [eauto | apply IH; eauto].
    + intros H. inversion H as [|? ? [payload Hp] Hrest]; subst.
      apply IH in Hrest as [ps Hps]. rewrite Hp, Hps. eauto.
Qed.
End MoreDifferFacts.

(** X11.  A comparison that succeeds never returns an empty list: it was
    given two files or more and returns at least one line per adjacent pair,
    whatever the library diff answers. *)
Theorem comparison_has_a_line_per_pair :
  forall (json_loads : string -> option value)
    (dumps_sorted : value -> list string)
    (unified_diff : list string -> list string -> string -> string -> list string)
    (fs : files) (file_paths diffs : list string),
    compare_json_files json_loads dumps_sorted unified_diff fs file_paths
      = inr diffs ->
    2 <= List.length file_paths
    /\ List.length file_paths - 1 <= List.length diffs
    /\ diffs <> [].
Proof.
  intros json_loads dumps_sorted unified_diff fs file_paths diffs H.
  destruct (@compare_json_files_inr _ _ _ _ _ _ H) as [Hlen [payloads Hread]].
  rewrite (@compare_json_files_output _ dumps_sorted unified_diff _ _ _ Hlen Hread)
    in H.
  injection H as <-.
  pose proof (@read_payloads_length _ _ _ _ Hread) as Hpl.
  assert (Hlower : List.length file_paths - 1 <=
                   List.length
                     (List.concat
                        (map (compare_step unified_diff file_paths
                                (map dumps_sorted payloads) [])
                           (seq 0 (List.length payloads - 1))))).
  { rewrite <- Hpl.
    etransitivity;
      [|apply concat_length_lower; intros i; apply compare_step_nonempty].
    rewrite length_seq. lia. }
  repeat split; try assumption.
  intros Hnil. rewrite Hnil in Hlower. simpl in Hlower. lia.
Qed.

Lemma comparison_has_a_line_per_pair_witness :
  2 <= List.length ["a.json"; "b.json"]
  /\ List.length ["a.json"; "b.json"] - 1 <=
     List.length ["--- a.json"; "+++ b.json"; "@@ -1 +1 @@"; "-[1]"; "+[2]"]
  /\ ["--- a.json"; "+++ b.json"; "@@ -1 +1 @@"; "-[1]"; "+[2]"] <> [].
Proof.
  apply (@comparison_has_a_line_per_pair toy_loads toy_dumps toy_diff
           (write_text (write_text no_files "a.json" "[1]") "b.json" "[2]")).
  reflexivity.
Defined.

(** X12.  A comparison succeeds exactly when it is given two paths or more
    and every one of them names a file that loads; with fewer than two paths
    it fails with the too-few-files error without looking at any file. *)
Theorem comparison_succeeds_iff_readable :
  forall (json_loads : string -> option value)
    (dumps_sorted : value -> list string)
    (unified_diff : list string -> list string -> string -> string -> list string)
    (fs : files) (file_paths : list string),
    ((exists diffs,
         compare_json_files json_loads dumps_sorted unified_diff fs file_paths
           = inr diffs) <->
     2 <= List.length file_paths
     /\ Forall (fun path => exists payload,
                    _read_json json_loads fs path = inr payload) file_paths)
    /\ (List.length file_paths < 2 ->
        compare_json_files json_loads dumps_sorted unified_diff fs file_paths
          = inl TooFewFiles).
Proof.
  intros json_loads dumps_sorted unified_diff fs file_paths. split.
  - split.
    + intros [diffs H].
      destruct (@compare_json_files_inr _ _ _ _ _ _ H) as [Hlen Hread].
      split; [assumption | now apply read_payloads_readable].
    + intros [Hlen Hall]. apply read_payloads_readable in Hall as [ps Hps].
      rewrite (@compare_json_files_output _ dumps_sorted unified_diff _ _ _ Hlen Hps).
      eauto.
  - intros Hlt. unfold compare_json_files.
    destruct (Nat.ltb_spec (List.length file_paths) 2); [reflexivity | lia].
Qed.

Lemma comparison_succeeds_iff_readable_witness :
  compare_json_files toy_loads toy_dumps toy_diff no_files ["missing.json"]
  = inl TooFewFiles.
Proof.
  apply (proj2 (@comparison_succeeds_iff_readable toy_loads toy_dumps toy_diff
                  no_files ["missing.json"])).
  simpl. lia.
Defined.

(** X13.  The comparison is a chain over adjacent files: the lines returned
    for three files or more are the lines returned for the first two files
    followed by the lines returned for the list without its first file. *)
Theorem comparison_is_a_chain :
  forall (json_loads : string -> option value)
    (dumps_sorted : value -> list string)
    (unified_diff : list string -> list string -> string -> string -> list string)
    (fs : files) (first second : string) (rest diffs : list string),
    rest <> [] ->
    compare_json_files json_loads dumps_sorted unified_diff fs
      (first :: second :: rest) = inr diffs ->
    exists head_diffs tail_diffs : list string,
      compare_json_files json_loads dumps_sorted unified_diff fs
        [first; second] = inr head_diffs
      /\ compare_json_files json_loads dumps_sorted unified_diff fs
           (second :: rest) = inr tail_diffs
      /\ diffs = head_diffs ++ tail_diffs.
Proof.
  intros json_loads dumps_sorted unified_diff fs first second rest diffs
    Hrest H.
  destruct (@compare_json_files_inr _ _ _ _ _ _ H) as [Hlen [payloads Hread]].
  rewrite (@compare_json_files_output _ dumps_sorted unified_diff _ _ _ Hlen Hread)
    in H.
  injection H as <-.
  cbn [read_payloads] in Hread.
  destruct (_read_json json_loads fs first) as [e|v1] eqn:E1; [discriminate|].
  destruct (_read_json json_loads fs second) as [e|v2] eqn:E2; [discriminate|].
  destruct (read_payloads json_loads fs rest) as [e|vs] eqn:Er; [discriminate|].
  injection Hread as <-.
  assert (Hhead : read_payloads json_loads fs [first; second] = inr [v1; v2])
    by (cbn [read_payloads]; now rewrite E1, E2).
  assert (Htail : read_payloads json_loads fs (second :: rest) = inr (v2 :: vs))
    by (cbn [read_payloads]; now rewrite E2, Er).
  assert (Hlen2 : 2 <= List.length (second :: rest))
    by (destruct rest; [congruence | simpl; lia]).
  do 2 eexists. split; [|split].
  - apply compare_json_files_output; [simpl; lia | exact Hhead].
  - apply compare_json_files_output; [exact Hlen2 | exact Htail].
  - cbn [List.length Nat.sub map seq List.concat app].
    rewrite Nat.sub_0_r, app_nil_r. f_equal.
    rewrite <- seq_shift, map_map. reflexivity.
Qed.

Lemma comparison_is_a_chain_witness :
  exists head_diffs tail_diffs : list string,
    compare_json_files toy_loads toy_dumps toy_diff
      (write_text (write_text no_files "a.json" "[1]") "b.json" "[2]")
      ["a.json"; "a.json"] = inr head_diffs
    /\ compare_json_files toy_loads toy_dumps toy_diff
         (write_text (write_text no_files "a.json" "[1]") "b.json" "[2]")
         ["a.json"; "b.json"] = inr tail_diffs
    /\ ["No differences detected between a.json and a.json.";
        "--- a.json"; "+++ b.json"; "@@ -1 +1 @@"; "-[1]"; "+[2]"]
       = head_diffs ++ tail_diffs.
Proof.
  apply (@comparison_is_a_chain toy_loads toy_dumps toy_diff
           (write_text (write_text no_files "a.json" "[1]") "b.json" "[2]")
           "a.json" "a.json" ["b.json"]).
  - discriminate.
  - reflexivity.
Defined.

(** ** The command line *)

Lemma formats_have_handlers (s t : string) :
  In s Main.FORMATS -> In t Main.FORMATS ->
  exists handler,
    Main.get_handler Main._CONVERSION_HANDLERS (s, t) = Some handler.
Proof.
  unfold Main.FORMATS. simpl.
  intros [<-|[<-|[<-|[]]]] [<-|[<-|[<-|[]]]]; eexists; reflexivity.
Qed.

Lemma inferred_format_is_known (suffix : string -> string) (path : string)
  (allow_missing : bool) (fmt : string) :
  Main._infer_format suffix path allow_missing = Some fmt ->
  In fmt Main.FORMATS.
Proof.
  unfold Main._infer_format.
  generalize (Main.lower (suffix path)) as ext. intros ext.
  unfold Main.EXTENSION_MAP, Main.FORMATS. cbn [Main.get].
  repeat match goal with
         | |- context [String.eqb ?a ext] => destruct (String.eqb a ext)
         end;
    try (intros [= <-]; simpl; tauto).
  destruct allow_missing; discriminate.
Qed.

Lemma known_format_truthy (s : string) :
  In s Main.FORMATS -> Main.truthy (Some s) = true.
Proof.
  unfold Main.FORMATS. simpl. intros [<-|[<-|[<-|[]]]]; reflexivity.
Qed.

(** X14.  Every pair of the three formats has a handler, and a format read
    off a file name is one of the three.  So, for arguments whose given
    formats are among the choices and whose two paths are present, choosing
    the converter never fails with the unsupported-conversion error: it can
    only fail because the input format, or else the output format, is
    neither given nor known from the file name. *)
Theorem conversion_is_never_unsupported :
  forall (suffix : string -> string) (args : Main.Namespace),
    (forall s, Main.source_format args = Some s -> In s Main.FORMATS) ->
    (forall t, Main.target_format args = Some t -> In t Main.FORMATS) ->
    Main.input args <> None ->
    Main.output args <> None ->
    forall e, Main._handle_convert suffix args = inl e ->
              e = Main.CannotInferInput \/ e = Main.CannotInferOutput.
Proof.
  intros suffix args Hsource Htarget Hin Hout e.
  unfold Main._handle_convert.
  destruct (Main.input args) as [inp|]; [|congruence].
  destruct (Main.output args) as [out|]; [|congruence].
  assert (Hs : exists o,
             (if Main.truthy (Main.source_format args)
              then inr (Main.source_format args)
              else inr (Main._infer_format suffix inp false))
             = (inr o : Main.cli_error + option string)
             /\ forall s, o = Some s -> In s Main.FORMATS).
  { destruct (Main.truthy (Main.source_format args)); eexists;
      (split; [reflexivity|]); [exact Hsource|].
    intros s. apply inferred_format_is_known. }
  assert (Ht : exists o,
             (if Main.truthy (Main.target_format args)
              then inr (Main.target_format args)
              else inr (Main._infer_format suffix out true))
             = (inr o : Main.cli_error + option string)
             /\ forall t, o = Some t -> In t Main.FORMATS).
  { destruct (Main.truthy (Main.target_format args)); eexists;
      (split; [reflexivity|]); [exact Htarget|].
    intros t. apply inferred_format_is_known. }
  destruct Hs as [so [-> Hso]]. destruct Ht as [to [-> Hto]].
  destruct so as [s|]; [|intros [= <-]; now left].
  specialize (Hso s eq_refl).
  pose proof (known_format_truthy Hso) as Hts.
  destruct s as [|c s]; [discriminate Hts|].
  destruct to as [t|]; [|intros [= <-]; now right].
  specialize (Hto t eq_refl).
  pose proof (known_format_truthy Hto) as Htt.
  destruct t as [|c' t]; [discriminate Htt|].
  destruct (formats_have_handlers Hso Hto) as [handler ->]. discriminate.
Qed.

Lemma conversion_is_never_unsupported_witness :
  Main.CannotInferInput = Main.CannotInferInput
  \/ Main.CannotInferInput = Main.CannotInferOutput.
Proof.
  apply (@conversion_is_never_unsupported (fun path => path)
           (Main.mkNamespace (Some ".TXT") (Some ".Json") None None
              false false false false false false [] false)).
  - discriminate.
  - discriminate.
  - discriminate.
  - discriminate.
  - reflexivity.
Defined.

(** X15.  A single shortcut flag decides the conversion by itself: with
    exactly one shortcut flag set and both paths present, the conversion
    branch chooses the handler of the flag's format pair, whatever formats
    were given and whatever the file names are; with two flags or more it
    fails with the one-shortcut-only error. *)
Theorem shortcut_alone_chooses_the_converter :
  forall (suffix : string -> string) (args : Main.Namespace),
    let active :=
      filter (Main.getattr args) (map fst Main.SHORTCUT_FLAGS) in
    (forall flag src dst,
        active = [flag] ->
        Main.get Main.SHORTCUT_FLAGS flag = Some (src, dst) ->
        Main.input args <> None ->
        Main.output args <> None ->
        exists handler,
          Main.get_handler Main._CONVERSION_HANDLERS (src, dst) = Some handler
          /\ Main.convert_mode suffix args = inr handler)
    /\ (2 <= List.length active ->
        Main.convert_mode suffix args = inl Main.ManyShortcuts).
Proof.
  intros suffix args active. subst active.
  destruct args as [inp out sf tf f1 f2 f3 f4 f5 f6 cmp pr]. split.
  - intros flag src dst Hactive Hflag Hin Hout.
    destruct inp as [inp|]; [|now cbn in Hin].
    destruct out as [out|]; [|now cbn in Hout].
    destruct f1, f2, f3, f4, f5, f6; cbn in Hactive; try discriminate Hactive;
      injection Hactive as <-; cbn in Hflag; injection Hflag as <- <-;
      eexists; split; reflexivity.
  - intros Hlen.
    destruct f1, f2, f3, f4, f5, f6; cbn in Hlen; try lia; reflexivity.
Qed.

Lemma shortcut_alone_chooses_the_converter_witness :
  exists handler,
    Main.get_handler Main._CONVERSION_HANDLERS ("xml", "csv") = Some handler
    /\ Main.convert_mode (fun path => path)
         (Main.mkNamespace (Some "data.json") (Some "out.txt")
            (Some "csv") (Some "json")
            false false false false false true [] false) = inr handler.
Proof.
  apply (proj1 (@shortcut_alone_chooses_the_converter (fun path => path)
                  (Main.mkNamespace (Some "data.json") (Some "out.txt")
                     (Some "csv") (Some "json")
                     false false false false false true [] false))
           "xml_to_csv" "xml" "csv").
  - reflexivity.
  - reflexivity.
  - discriminate.
  - discriminate.
Defined.

(** ** Found rows are in the document *)

Lemma unique_keys_entries (entries : dict) :
  unique_keys (VDict entries) ->
  NoDup (dict_keys entries) /\ Forall (fun kv => unique_keys (snd kv)) entries.
Proof.
  inversion 1; [discriminate | auto].
Qed.

Lemma dict_lookup_some_key (d : dict) (k : string) (v : value) :
  dict_lookup d k = Some v -> In k (dict_keys d).
Proof.
  intros H. apply dict_lookup_In in H.
  apply (in_map fst) in H. exact H.
Qed.

Lemma _find_first_row_list_reachable (data : value) (rows : list dict) :
  unique_keys data ->
  _find_first_row_list data = Some rows ->
  exists keys : list string,
    walk data keys = Some (VList (map VDict rows)).
Proof.
  revert rows.
  induction data as [| | | |items _|entries IH] using value_nested_ind;
    intros rows Huk Hfound; try discriminate Hfound.
  - exists []. cbn [_find_first_row_list] in Hfound.
    rewrite _ensure_list_of_dicts_spec in Hfound.
    destruct (is_row_list (VList items)) eqn:E; [|discriminate].
    injection Hfound as <-. cbn [walk]. do 2 f_equal. symmetry.
    apply map_VDict_dicts_of. destruct items; [discriminate | exact E].
  - apply unique_keys_entries in Huk as [Hnd Hvalues].
    cbn [_find_first_row_list] in Hfound.
    assert (Hentry : exists k v keys,
              dict_lookup entries k = Some v
              /\ walk v keys = Some (VList (map VDict rows))).
    { clear -IH Hnd Hvalues Hfound.
      induction entries as [|[k v] entries IHe]; [discriminate|].
      inversion IH as [|? ? Hv IHrest]; subst.
      inversion Hvalues as [|? ? Huv Hurest]; subst.
      inversion Hnd as [|? ? Hk Hndrest]; subst.
      cbn [snd] in Hv, Huv.
      destruct (_find_first_row_list v) as [found|] eqn:E.
      - injection Hfound as ->.
        destruct (Hv rows Huv eq_refl) as [keys Hkeys].
        exists k, v, keys. cbn [dict_lookup]. now rewrite String.eqb_refl.
      - destruct (IHe IHrest Hndrest Hurest Hfound) as [k2 [v2 [keys [Hl Hw]]]].
        exists k2, v2, keys. split; [|exact Hw].
        cbn [dict_lookup]. destruct (String.eqb k k2) eqn:Ek; [|exact Hl].
        apply String.eqb_eq in Ek. subst k2.
        apply dict_lookup_some_key in Hl. contradiction. }
    destruct Hentry as [k [v [keys [Hl Hw]]]].
    exists (k :: keys). cbn [walk]. now rewrite Hl.
Qed.

(** X16.  What the search finds is in the document and can be named: when
    the search over a value with distinct keys in every Fields returns rows,
    some chain of keys leads through Fields to a Sequence holding exactly
    these rows, and every dotted path that splits into these keys returns the
    same rows.  This holds for every decoded markup document. *)
Theorem found_rows_are_reachable_by_path :
  (forall (data : value) (rows : list dict),
      unique_keys data ->
      _find_first_row_list data = Some rows ->
      exists keys : list string,
        walk data keys = Some (VList (map VDict rows))
        /\ forall dotted_path,
             split "." dotted_path = keys ->
             _follow_row_path data dotted_path = Some rows)
  /\ (forall root : Element, unique_keys (_xml_to_dict root)).
Proof.
  split.
  - intros data rows Huk Hfound.
    destruct (_find_first_row_list_reachable Huk Hfound) as [keys Hkeys].
    exists keys. split; [exact Hkeys|].
    intros dotted_path Hsplit. unfold _follow_row_path.
    rewrite follow_loop_walk, Hsplit, Hkeys.
    rewrite _ensure_list_of_dicts_spec, dicts_of_map_VDict.
    apply _find_first_row_list_nonempty in Hfound.
    destruct rows as [|d rows]; [congruence|].
    cbn [map is_row_list].
    change (VDict d :: map VDict rows) with (map VDict (d :: rows)).
    now rewrite forallb_is_dict_map.
  - intros root. unfold _xml_to_dict. apply unique_keys_dict.
    + apply NoDup_cons; [simpl; tauto | apply NoDup_nil].
    + apply Forall_cons; [apply _element_to_data_unique_keys | apply Forall_nil].
Qed.

Lemma found_rows_are_reachable_by_path_witness :
  exists keys : list string,
    walk (_xml_to_dict people_xml) keys =
      Some (VList (map VDict [[("name", VStr "Alice"); ("age", VStr "30")];
                              [("name", VStr "Bob"); ("age", VStr "25")]]))
    /\ forall dotted_path,
         split "." dotted_path = keys ->
         _follow_row_path (_xml_to_dict people_xml) dotted_path =
         Some [[("name", VStr "Alice"); ("age", VStr "30")];
               [("name", VStr "Bob"); ("age", VStr "25")]].
Proof.
  apply (proj1 found_rows_are_reachable_by_path (_xml_to_dict people_xml)).
  - apply (proj2 found_rows_are_reachable_by_path people_xml).
  - reflexivity.
Defined.

(** X17.  The validator is all or nothing and keeps the order: it returns
    rows exactly when the items are a non-empty list of Fields, and the rows
    are then these Fields, all of them, in the order of the items. *)
Theorem ensure_list_of_dicts_all_or_nothing :
  forall (items : list value) (rows : list dict),
    _ensure_list_of_dicts items = Some rows <->
    rows <> [] /\ items = map VDict rows.
Proof.
  intros items rows. rewrite _ensure_list_of_dicts_spec. split.
  - destruct (is_row_list (VList items)) eqn:E; [|discriminate].
    intros [= <-]. destruct items as [|x items]; [discriminate|].
    cbn [is_row_list] in E. split.
    + apply dicts_of_length in E. destruct (dicts_of (x :: items)); discriminate.
    + symmetry. now apply map_VDict_dicts_of.
  - intros [Hne ->]. rewrite dicts_of_map_VDict.
    destruct rows as [|d rows]; [congruence|].
    cbn [map is_row_list].
    change (VDict d :: map VDict rows) with (map VDict (d :: rows)).
    now rewrite forallb_is_dict_map.
Qed.


